(** * sqla: a shallow embedding of the SQLAlchemy table helper

    The development follows the three source files:
    - [helpers.py]   : [tab], [jsonify_dict], [jsonify_records];
    - [constants.py] : the database URL;
    - [sqlalchemy.py]: the methods of class [SqlAlchemy], [read_table]
                       first of all;
    - the relational engine and the SQLAlchemy expression language are
      external to the repository; the part of them that the methods
      use is modelled in module [Sql].

    Python code that may raise is written in the [result] monad; a bare
    [try: ... except: ...] is [try_except]. *)

From Stdlib Require Import ZArith List String Bool Lia Arith.
From Stdlib Require Import Ascii DecimalString.
From Stdlib Require OrdersEx.
Import ListNotations.

Local Open Scope string_scope.
Local Open Scope list_scope.
Local Open Scope Z_scope.

(* ================================================================= *)
(** ** Python values, exceptions and dictionaries *)

Inductive pyexc : Type :=
| NameError (name : string)
| UnboundLocalError (name : string)
| KeyError (key : string)
| AttributeError (attr : string)
| IndexError
| TypeError (msg : string)
| ZeroDivisionError
| ValueError (msg : string)
| ArgumentError (msg : string)
| NoSuchTableError (table : string)
| DBAPIError (msg : string).

Inductive result (A : Type) : Type :=
| Ok (a : A)
| Raise (e : pyexc).
Arguments Ok {A} a.
Arguments Raise {A} e.

(** An object as the code sees it.  The code applies three operations
    to a value it knows nothing about: truth value testing, [str] and
    [json.dumps]; an object is given by what the three do with it.
    [str] raises when [__str__] does, and [json.dumps] raises on an
    object that is no instance of a JSON type. *)
Record pyobject : Type := mkObject {
  o_bool : bool;
  o_str : result string;
  o_json : result unit
}.

(** The values that travel through the code: [None], booleans,
    integers, strings and objects of other classes.  [VObj repr] is the
    common object, a [datetime] say: true, printed as [repr], refused
    by [json.dumps].  [VObject o] is any object:
    [Decimal('0')] and [timedelta(0)] are false, an object may print as
    it likes or raise while doing so, and [json.dumps] may take it.
    The objects are those of the classes [tab] has no branch for: a
    value whose class is [float], [list], [dict], [DataFrame] or
    [Series] has no representation here. *)
Inductive pyval : Type :=
| VNone
| VBool (b : bool)
| VInt (z : Z)
| VStr (s : string)
| VObj (repr : string)
| VObject (o : pyobject).

(** Python truth value testing, as used by [if x] and [x and y]. *)
Definition truthy (v : pyval) : bool :=
  match v with
  | VNone => false
  | VBool b => b
  | VInt z => negb (z =? 0)
  | VStr s => negb (s =? "")%string
  | VObj _ => true
  | VObject o => o_bool o
  end.

(** [x != None]. *)
Definition is_none (v : pyval) : bool :=
  match v with VNone => true | _ => false end.

(** The decimal text of an integer. *)
Definition int_text (z : Z) : string := NilZero.string_of_int (Z.to_int z).

(** The interpreter converts an integer to text up to a number of
    digits, 4300 unless configured otherwise (Python 3.11); past it the
    conversion raises [ValueError]. *)
Definition int_max_str_digits : nat := 4300.

Definition too_long (z : Z) : bool :=
  (int_max_str_digits <? String.length (int_text (Z.abs z)))%nat.

Definition digits_error : pyexc :=
  ValueError "Exceeds the limit (4300 digits) for integer string conversion".

(** The builtin [str]: the text, or what the conversion raises, which
    for an object is what [__str__] raises. *)
Definition py_str (v : pyval) : result string :=
  match v with
  | VNone => Ok "None"
  | VBool true => Ok "True"
  | VBool false => Ok "False"
  | VInt z => if too_long z then Raise digits_error else Ok (int_text z)
  | VStr s => Ok s
  | VObj repr => Ok repr
  | VObject o => o_str o
  end.

Definition bind {A B} (m : result A) (k : A -> result B) : result B :=
  match m with
  | Ok a => k a
  | Raise e => Raise e
  end.

Declare Scope py_scope.
Delimit Scope py_scope with py.
Notation "x <- m ;; k" := (bind m (fun x => k))
  (at level 100, m at next level, right associativity) : py_scope.
Notation "' p <- m ;; k" := (bind m (fun p => k))
  (at level 100, p pattern, m at next level, right associativity) : py_scope.
Local Open Scope py_scope.

(** [try: body  except: handler] with a bare [except]. *)
Definition try_except {A} (body : result A) (handler : pyexc -> result A)
  : result A :=
  match body with
  | Ok a => Ok a
  | Raise e => handler e
  end.

(** [for x in xs: s = body(s, x)]; the first exception leaves the loop. *)
Fixpoint for_in {A S} (xs : list A) (body : S -> A -> result S) (s : S)
  : result S :=
  match xs with
  | [] => Ok s
  | x :: xs' => s' <- body s x ;; for_in xs' body s'
  end.

(** [[f(x) for x in xs]]. *)
Fixpoint map_m {A B} (f : A -> result B) (xs : list A) : result (list B) :=
  match xs with
  | [] => Ok []
  | x :: xs' => y <- f x ;; ys <- map_m f xs' ;; Ok (y :: ys)
  end.

(** Reading a local variable that may not have been assigned yet. *)
Definition local {A} (name : string) (v : option A) : result A :=
  match v with
  | Some a => Ok a
  | None => Raise (UnboundLocalError name)
  end.

Definition is_ok {A} (m : result A) : bool :=
  match m with Ok _ => true | Raise _ => false end.

(** A [dict] with string keys, in insertion order. *)
Definition dict : Type := list (string * pyval).

Definition keys (d : dict) : list string := map fst d.

(** [d[key]]. *)
Fixpoint dict_getitem (d : dict) (key : string) : result pyval :=
  match d with
  | [] => Raise (KeyError key)
  | (k, v) :: d' => if (k =? key)%string then Ok v else dict_getitem d' key
  end.

(** [d[key] = value]: an existing key keeps its place, a new key goes
    last. *)
Fixpoint dict_setitem (d : dict) (key : string) (value : pyval) : dict :=
  match d with
  | [] => [(key, value)]
  | (k, v) :: d' =>
      if (k =? key)%string then (k, value) :: d'
      else (k, v) :: dict_setitem d' key value
  end.

(** A [dict] from strings to strings, and [d[key]] on it. *)
Definition str_dict : Type := list (string * string).

Fixpoint str_getitem (d : str_dict) (key : string) : result string :=
  match d with
  | [] => Raise (KeyError key)
  | (k, v) :: d' => if (k =? key)%string then Ok v else str_getitem d' key
  end.

(** [dict(zip(ks, vs))]. *)
Definition dict_zip (ks : list string) (vs : list pyval) : dict :=
  fold_left (fun d kv => dict_setitem d (fst kv) (snd kv)) (combine ks vs) [].

(** [enumerate(xs)]. *)
Definition enumerate {A} (xs : list A) : list (nat * A) :=
  combine (seq 0 (List.length xs)) xs.

(** [xs[i] = x] on a list. *)
Fixpoint list_setitem {A} (xs : list A) (i : nat) (x : A) : result (list A) :=
  match xs, i with
  | [], _ => Raise IndexError
  | _ :: xs', O => Ok (x :: xs')
  | y :: xs', S i' => xs'' <- list_setitem xs' i' x ;; Ok (y :: xs'')
  end.

(** [xs[i]]. *)
Definition list_getitem {A} (xs : list A) (i : nat) : result A :=
  match nth_error xs i with
  | Some x => Ok x
  | None => Raise IndexError
  end.

(* ================================================================= *)
(** ** helpers.py *)

Module Helpers.

(** [json.dumps(value)].  The helpers discard the encoded text, so only
    the outcome is kept: the encoder accepts [None], booleans, strings
    and the integers it can write out, raises [TypeError] on a [VObj],
    and does with another object what the object says. *)
Definition json_dumps (value : pyval) : result unit :=
  match value with
  | VInt z => if too_long z then Raise digits_error else Ok tt
  | VObj _ => Raise (TypeError "Object is not JSON serializable")
  | VObject o => o_json o
  | _ => Ok tt
  end.

(** A value is representable in JSON when the encoder accepts it. *)
Definition json_representable (value : pyval) : bool :=
  is_ok (json_dumps value).

(** helpers.py, lines 29-37.  The handler of line 36 calls [str]
    outside any [try]: what it raises leaves the function. *)
Definition jsonify_dict (d_in : dict) : result dict :=
  for_in d_in
    (fun d_out '(key, value) =>
       try_except
         (_ <- json_dumps value ;;
          Ok (dict_setitem d_out key value))
         (fun _ =>
            text <- py_str value ;;
            Ok (dict_setitem d_out key (VStr text))))
    [].

(** [records_arr[i][key] = value]. *)
Definition records_setitem (records_arr : list dict) (i : nat)
    (key : string) (value : pyval) : result (list dict) :=
  d <- list_getitem records_arr i ;;
  list_setitem records_arr i (dict_setitem d key value).

(** helpers.py, lines 39-47.  The list is updated in place and returned;
    the state threaded through the loops is the content of
    [records_arr].  The inner loop walks the items of [d_in] as they
    were when it started: the assignments only overwrite the value of
    the key being visited, so the live view shows the same items. *)
Definition jsonify_records (records_arr : list dict) : result (list dict) :=
  for_in (enumerate records_arr)
    (fun arr '(i, d_in) =>
       for_in d_in
         (fun arr '(key, value) =>
            try_except
              (_ <- json_dumps value ;;
               records_setitem arr i key value)
              (fun _ =>
                 text <- py_str value ;;
                 records_setitem arr i key (VStr text)))
         arr)
    records_arr.

(** The conversion of one value as the specification words it: a value
    that is not representable becomes its string form, any other value
    is kept.  The string form is what [str] gives, when it gives one. *)
Definition jsonify_value (value : pyval) : result pyval :=
  if json_representable value then Ok value
  else text <- py_str value ;; Ok (VStr text).

(** The same on one field of a record. *)
Definition jsonify_field (kv : string * pyval) : result (string * pyval) :=
  value <- jsonify_value (snd kv) ;; Ok (fst kv, value).

(** *** tab *)

(** The character [\n] and the escape character [\033]. *)
Definition newline : ascii := ascii_of_nat 10.
Definition escape : ascii := ascii_of_nat 27.

(** [' ' * n]. *)
Fixpoint spaces (n : nat) : string :=
  match n with
  | O => ""
  | S n' => String " " (spaces n')
  end.

(** [s.replace(old, new)] for a pattern [old] of one character. *)
Fixpoint replace_char (old : ascii) (new : string) (s : string) : string :=
  match s with
  | EmptyString => EmptyString
  | String c s' =>
      if Ascii.eqb c old then new ++ replace_char old new s'
      else String c (replace_char old new s')
  end.

(** helpers.py, line 7. *)
Definition color_dict : list (string * string) :=
  [("red", String escape "[91m"); ("green", String escape "[92m");
   ("yellow", String escape "[93m"); ("blue", String escape "[94m");
   ("pink", String escape "[95m"); ("teal", String escape "[96m");
   ("grey", String escape "[97m")].

(** [color_dict[color]]. *)
Fixpoint color_getitem (d : list (string * string)) (color : string)
  : result string :=
  match d with
  | [] => Raise (KeyError color)
  | (k, code) :: d' =>
      if (k =? color)%string then Ok code else color_getitem d' color
  end.

(** helpers.py, lines 6-18, on the values of [pyval]: a string takes
    the first branch, an integer the third, and [None], a boolean
    ([type(True)] is [bool], not [int]) or an object of another class
    takes none and leaves [ret] empty.  A negative [indent] gives no
    space.  The limits of size are left out of [tab]: an [indent] too
    large for a string, and in [str(input)] an integer too long to be
    converted. *)
Definition tab (input : pyval) (indent : Z) (color : option string)
  : result string :=
  let pad := spaces (Z.to_nat indent) in
  ret <- match input with
         | VStr s =>
             Ok (pad ++ replace_char newline (String newline pad) s)%string
         | VInt z =>
             Ok (pad ++ replace_char newline (String newline pad)
                          (int_text z))%string
         | _ => Ok ""
         end ;;
  ret <- match color with
         | Some c =>
             code <- color_getitem color_dict c ;; Ok (code ++ ret)%string
         | None => Ok ret
         end ;;
  Ok (ret ++ String escape "[0m")%string.

(** [s.split('\n')] and ['\n'.join(ls)], to state what [tab] does line
    by line. *)
Fixpoint split_lines (s : string) : list string :=
  match s with
  | EmptyString => [EmptyString]
  | String c s' =>
      if Ascii.eqb c newline then EmptyString :: split_lines s'
      else match split_lines s' with
           | l :: ls => String c l :: ls
           | [] => [String c EmptyString]
           end
  end.

Definition join_lines (ls : list string) : string :=
  String.concat (String newline "") ls.

End Helpers.

(* ================================================================= *)
(** ** constants.py *)

Module Constants.

(** [os.environ]: the first binding of a name is the one in force. *)
Definition environ : Type := list (string * string).

(** [os.environ.get(key, default)]. *)
Fixpoint environ_get (env : environ) (key default : string) : string :=
  match env with
  | [] => default
  | (k, v) :: env' =>
      if (k =? key)%string then v else environ_get env' key default
  end.

(** constants.py, lines 5-7. *)
Definition _DATABASE_UID (env : environ) : string :=
  environ_get env "DATABASE_UID" "".

Definition _DATABASE_PWD (env : environ) : string :=
  environ_get env "DATABASE_PWD" "".

Definition _DATABASE_HOST (env : environ) : string :=
  environ_get env "_DATABASE_HOST" "".

(** constants.py, lines 9-11. *)
Definition get_db_url (uid pwd server port driver database : string)
  : string :=
  driver ++ "://" ++ uid ++ ":" ++ pwd ++ "@" ++ server ++ ":" ++ port
  ++ "/" ++ database.

(** constants.py, line 13. *)
Definition _DB_URL (env : environ) : string :=
  get_db_url (_DATABASE_UID env) (_DATABASE_PWD env) (_DATABASE_HOST env)
    "5432" "postgresql" "sports_data".

End Constants.

(* ================================================================= *)
(** ** The relational engine and the expression language

    The part of SQLAlchemy and of the database that the methods of
    [SqlAlchemy] rely on.  A table is its reflected column names and
    its current rows; a row holds one value per column, in column
    order; SQL [NULL] is [VNone].  The engine is modelled on integer,
    string and boolean cells: a comparison with [NULL], with an object
    (a date, a decimal) or between values of different kinds is
    unknown here, and the errors an engine may report for it are left
    out.  Rows that tie under [ORDER BY] keep their stored order. *)

Module Sql.

Definition row : Type := list pyval.

Record Table : Type := mkTable {
  t_name : string;
  t_columns : list string;
  t_rows : list row
}.

(** The tables of the schema, as the engine holds them. *)
Definition database : Type := list Table.

(** [Table(table_name, metadata, schema=..., autoload_with=engine)]. *)
Fixpoint reflect (db : database) (table_name : string) : result Table :=
  match db with
  | [] => Raise (NoSuchTableError table_name)
  | t :: db' =>
      if (t_name t =? table_name)%string then Ok t
      else reflect db' table_name
  end.

Definition has_column (tbl : Table) (name : string) : bool :=
  existsb (String.eqb name) (t_columns tbl).

(** [tbl.c[name]]: the column, here its name, or [KeyError]. *)
Definition c_getitem (tbl : Table) (name : string) : result string :=
  if has_column tbl name then Ok name else Raise (KeyError name).

(** The names that the column collection [tbl.c] has as attributes of
    its own, in one version of SQLAlchemy or another: its public
    methods, and the private and special names, which start with an
    underscore. *)
Definition collection_member (name : string) : bool :=
  existsb (String.eqb name)
    ["add"; "as_readonly"; "as_immutable"; "clear"; "compare";
     "contains_column"; "corresponding_column"; "extend"; "get";
     "has_key"; "items"; "keys"; "remove"; "replace"; "update"; "values"]
  || String.prefix "_" name.

(** [getattr(tbl.c, name)] and [tbl.c.name] for a name that is not a
    member of the collection: the column or [AttributeError].  For a
    member, [getattr] returns the member and not a column, whether the
    table has a column of that name or not, and line 202 of
    [read_table] refuses it; the statements that say a frame is
    returned exclude such names. *)
Definition c_getattr (tbl : Table) (name : string) : result string :=
  if has_column tbl name then Ok name else Raise (AttributeError name).

(** The value of column [c] in row [r] of a table with columns [cols]. *)
Fixpoint cell (cols : list string) (r : row) (c : string) : pyval :=
  match cols, r with
  | k :: cols', v :: r' => if (k =? c)%string then v else cell cols' r' c
  | _, _ => VNone
  end.

Inductive cmp_op : Type := OpEq | OpGt | OpGe | OpLe.

(** Column expressions.  [And_], [Or_] and [Not_] are [sql.and_],
    [sql.or_] and [sql.not_]. *)
#[warnings="-register-all"]
Inductive clause : Type :=
| Compare (c : string) (op : cmp_op) (v : pyval)
| Between (c : string) (lo hi : pyval)
| IsNull (c : string)
| IsNotNull (c : string)
| In_ (c : string) (vs : list pyval)
| And_ (cs : list clause)
| Or_ (cs : list clause)
| Not_ (cl : clause).

(** [column == value]: SQLAlchemy turns a comparison with [None] into
    [IS NULL]. *)
Definition col_eq (c : string) (v : pyval) : clause :=
  if is_none v then IsNull c else Compare c OpEq v.

(** [column > value], [column >= value] and [column <= value]:
    SQLAlchemy builds them with a value it can bind, and raises
    [ArgumentError] with [None], [True] and [False], which go with [=]
    and [!=] only. *)
Definition col_order (c : string) (op : cmp_op) (v : pyval) : result clause :=
  match v with
  | VNone | VBool _ =>
      Raise (ArgumentError "operator cannot be used with None/True/False")
  | _ => Ok (Compare c op v)
  end.

(** A condition built from one column, with no connective. *)
Definition atomic (cl : clause) : bool :=
  match cl with
  | And_ _ | Or_ _ | Not_ _ => false
  | _ => true
  end.

(** SQL's three-valued logic: [None] is unknown. *)
Definition and3 (a b : option bool) : option bool :=
  match a, b with
  | Some false, _ | _, Some false => Some false
  | Some true, Some true => Some true
  | _, _ => None
  end.

Definition or3 (a b : option bool) : option bool :=
  match a, b with
  | Some true, _ | _, Some true => Some true
  | Some false, Some false => Some false
  | _, _ => None
  end.

Definition not3 (a : option bool) : option bool := option_map negb a.

(** Comparison of two integers, two strings or two booleans; unknown
    when one side is [NULL] or an object, or when the kinds differ.
    Strings compare by code point, which is the order of the engine
    under the [C] collation only: the statements on the rows returned
    speak of integers where the order matters. *)
Definition sql_compare (a b : pyval) : option comparison :=
  match a, b with
  | VInt x, VInt y => Some (x ?= y)
  | VStr s, VStr t => Some (OrdersEx.String_as_OT.compare s t)
  | VBool x, VBool y => Some (Bool.compare x y)
  | _, _ => None
  end.

Definition test_op (op : cmp_op) (c : comparison) : bool :=
  match op, c with
  | OpEq, Eq => true
  | OpGt, Gt => true
  | OpGe, (Gt | Eq) => true
  | OpLe, (Lt | Eq) => true
  | _, _ => false
  end.

Definition sql_cmp (op : cmp_op) (a b : pyval) : option bool :=
  option_map (test_op op) (sql_compare a b).

(** The truth value of a condition on one row. *)
Fixpoint eval (cols : list string) (r : row) (cl : clause) : option bool :=
  match cl with
  | Compare c op v => sql_cmp op (cell cols r c) v
  | Between c lo hi =>
      and3 (sql_cmp OpGe (cell cols r c) lo) (sql_cmp OpLe (cell cols r c) hi)
  | IsNull c => Some (is_none (cell cols r c))
  | IsNotNull c => Some (negb (is_none (cell cols r c)))
  | In_ c vs =>
      fold_right (fun v acc => or3 (sql_cmp OpEq (cell cols r c) v) acc)
                 (Some false) vs
  | And_ cs => fold_right (fun cl' acc => and3 (eval cols r cl') acc) (Some true) cs
  | Or_ cs => fold_right (fun cl' acc => or3 (eval cols r cl') acc) (Some false) cs
  | Not_ cl' => not3 (eval cols r cl')
  end.

(** [WHERE] keeps the rows on which the condition is true. *)
Definition holds (cols : list string) (cl : clause) (r : row) : bool :=
  match eval cols r cl with
  | Some true => true
  | _ => false
  end.

(** The order of [ORDER BY]: integers by their order, [NULL] after
    every other value, as PostgreSQL has it.  The sort needs a total
    order, so the other values are given one as well (strings by code
    point, a [VObj] by its text), which is not claimed to be the
    engine's: the statements on the order of the rows speak of integers
    and [NULL]. *)
Definition rank (v : pyval) : nat :=
  match v with
  | VBool _ => 0
  | VInt _ => 1
  | VStr _ => 2
  | VObj _ => 3
  | VObject _ => 4
  | VNone => 5
  end.

Definition string_leb (s t : string) : bool :=
  match OrdersEx.String_as_OT.compare s t with
  | Gt => false
  | _ => true
  end.

Definition order_leb (a b : pyval) : bool :=
  match a, b with
  | VInt x, VInt y => x <=? y
  | VStr s, VStr t => string_leb s t
  | VBool x, VBool y => implb x y
  | VObj s, VObj t => string_leb s t
  | _, _ => (rank a <=? rank b)%nat
  end.

(** A stable sort of the rows. *)
Fixpoint insert_row (le : row -> row -> bool) (x : row) (l : list row)
  : list row :=
  match l with
  | [] => [x]
  | y :: l' => if le x y then x :: l else y :: insert_row le x l'
  end.

Definition sort_rows (le : row -> row -> bool) (l : list row) : list row :=
  fold_right (insert_row le) [] l.

(** A list in which no row comes before an earlier one. *)
Fixpoint ascending (le : row -> row -> bool) (l : list row) : Prop :=
  match l with
  | [] => True
  | x :: l' => (forall y, In y l' -> le x y = true) /\ ascending le l'
  end.

(** One [ORDER BY] term: a column, ascending, or [sql.desc(column)]. *)
Inductive ordering : Type :=
| Asc (c : string)
| Desc (c : string).

Definition ordering_leb (cols : list string) (o : ordering) (r1 r2 : row)
  : bool :=
  match o with
  | Asc c => order_leb (cell cols r1 c) (cell cols r2 c)
  | Desc c => order_leb (cell cols r2 c) (cell cols r1 c)
  end.

(** A [SELECT] statement on one table. *)
Record Select : Type := mkSelect {
  s_from : Table;
  s_columns : list string;
  s_where : option clause;
  s_order_by : option ordering;
  s_limit : option Z
}.

(** [sql.select] applied to the columns. *)
Definition select (tbl : Table) (columns : list string) : Select :=
  mkSelect tbl columns None None None.

(** [query.where(cl)]. *)
Definition where_ (q : Select) (cl : clause) : Select :=
  mkSelect (s_from q) (s_columns q) (Some cl) (s_order_by q) (s_limit q).

(** [query.order_by(o)]. *)
Definition order_by (q : Select) (o : ordering) : Select :=
  mkSelect (s_from q) (s_columns q) (s_where q) (Some o) (s_limit q).

(** [query.limit(n)]. *)
Definition limit_ (q : Select) (n : Z) : Select :=
  mkSelect (s_from q) (s_columns q) (s_where q) (s_order_by q) (Some n).

(** The rows selected by the [WHERE] clause. *)
Definition filtered (q : Select) : list row :=
  match s_where q with
  | None => t_rows (s_from q)
  | Some cl => filter (holds (t_columns (s_from q)) cl) (t_rows (s_from q))
  end.

Definition ordered (q : Select) : list row :=
  match s_order_by q with
  | None => filtered q
  | Some o => sort_rows (ordering_leb (t_columns (s_from q)) o) (filtered q)
  end.

(** The engine rejects a negative [LIMIT]. *)
Definition limited (q : Select) : result (list row) :=
  match s_limit q with
  | None => Ok (ordered q)
  | Some n =>
      if n <? 0 then Raise (DBAPIError "LIMIT must not be negative")
      else Ok (firstn (Z.to_nat n) (ordered q))
  end.

Definition project (cols columns : list string) (r : row) : row :=
  map (cell cols r) columns.

(** [conn.execute(query)]: filter, sort, cut, project. *)
Definition execute (q : Select) : result (list row) :=
  rows <- limited q ;;
  Ok (map (project (t_columns (s_from q)) (s_columns q)) rows).

(** [result.fetchone()]: the first row or [None]. *)
Definition fetchone (rows : list row) : option row :=
  match rows with
  | [] => None
  | r :: _ => Some r
  end.

(** A [pandas.DataFrame]: column labels and the rows under them.  The
    rows hold the values as the engine returns them; the representation
    that pandas chooses for a column (its dtype) is not modelled. *)
Record DataFrame : Type := mkDataFrame {
  df_columns : list string;
  df_rows : list row
}.

(** [pd.read_sql(sql=query, con=conn)]. *)
Definition read_sql (q : Select) : result DataFrame :=
  rows <- execute q ;;
  Ok (mkDataFrame (s_columns q) rows).

(** An [UPDATE tbl SET ... WHERE cl] statement. *)
Record Update : Type := mkUpdate {
  u_table : Table;
  u_where : clause;
  u_values : list (string * pyval)
}.

(** The row after the assignments of an [UPDATE]. *)
Fixpoint set_cell (cols : list string) (r : row) (c : string) (v : pyval)
  : row :=
  match cols, r with
  | k :: cols', x :: r' =>
      if (k =? c)%string then v :: r' else x :: set_cell cols' r' c v
  | _, _ => r
  end.

Definition assign (cols : list string) (vals : list (string * pyval))
    (r : row) : row :=
  fold_left (fun r' kv => set_cell cols r' (fst kv) (snd kv)) vals r.

Fixpoint replace_table (db : database) (t : Table) : database :=
  match db with
  | [] => []
  | t0 :: db' =>
      if (t_name t0 =? t_name t)%string then t :: db'
      else t0 :: replace_table db' t
  end.

(** [conn.execute(update_stmt)] on the tables of the open transaction.
    A column of [values(...)] that the table does not have is refused. *)
Definition execute_update (db : database) (u : Update) : result database :=
  tbl <- reflect db (t_name (u_table u)) ;;
  if forallb (fun kv => has_column tbl (fst kv)) (u_values u) then
    let cols := t_columns tbl in
    let rows :=
      map (fun r => if holds cols (u_where u) r
                    then assign cols (u_values u) r else r)
          (t_rows tbl) in
    Ok (replace_table db (mkTable (t_name tbl) cols rows))
  else Raise (DBAPIError "Unconsumed column names").

(** [conn.execute(sql.delete(tbl))]: no row is left. *)
Definition execute_delete (db : database) (tbl : Table) : result database :=
  tbl' <- reflect db (t_name tbl) ;;
  Ok (replace_table db (mkTable (t_name tbl') (t_columns tbl') [])).

(** [select(a.c[x]).where(not_(exists(select(b.c[s]).where(b.c[l] ==
    a.c[r]))))]: the subquery is correlated to the table of the
    enclosing statement. *)
Record NotExists : Type := mkNotExists {
  n_from : Table;
  n_column : string;
  n_sub_from : Table;
  n_sub_column : string;
  n_sub_left : string;
  n_sub_right : string
}.

(** [conn.execute(query).scalars().all()] for such a statement.  A row
    of the outer table is kept when no row of the inner table makes the
    comparison true.  When both tables are one and the same, the
    correlation leaves the subquery without a table and the statement
    is refused. *)
Definition execute_not_exists (q : NotExists) : result (list pyval) :=
  if (t_name (n_from q) =? t_name (n_sub_from q))%string then
    Raise (DBAPIError "no FROM clauses due to auto-correlation")
  else
    Ok (map (fun ra => cell (t_columns (n_from q)) ra (n_column q))
          (filter
             (fun ra =>
                negb (existsb
                        (fun rb =>
                           match sql_cmp OpEq
                                   (cell (t_columns (n_sub_from q)) rb
                                      (n_sub_left q))
                                   (cell (t_columns (n_from q)) ra
                                      (n_sub_right q)) with
                           | Some true => true
                           | _ => false
                           end)
                        (t_rows (n_sub_from q))))
             (t_rows (n_from q)))).

End Sql.

(* ================================================================= *)
(** ** sqlalchemy.py: class [SqlAlchemy] *)

Module SqlAlchemy.
Import Sql.

(** *** get_last_row and get_first_row_after *)

(** sqlalchemy.py, lines 133-152. *)
Definition get_last_row (db : database) (table_name : string)
    (col : string) (ascending : bool) : result dict :=
  tbl <- reflect db table_name ;;
  let column_names := t_columns tbl in
  id <- c_getattr tbl "id" ;;
  let query := limit_ (order_by (select tbl (t_columns tbl)) (Desc id)) 1 in
  result <- execute query ;;
  match fetchone result with
  | Some row => Ok (dict_zip column_names row)
  | None => Raise (TypeError "'NoneType' object is not iterable")
  end.

(** sqlalchemy.py, lines 154-173. *)
Definition get_first_row_after (db : database) (table_name : string)
    (col : string) (value : pyval) : result dict :=
  tbl <- reflect db table_name ;;
  let column_names := t_columns tbl in
  id <- c_getattr tbl "id" ;;
  let query := limit_ (order_by (select tbl (t_columns tbl)) (Desc id)) 1 in
  result <- execute query ;;
  match fetchone result with
  | Some row => Ok (dict_zip column_names row)
  | None => Raise (TypeError "'NoneType' object is not iterable")
  end.

(** *** read_table *)

(** The keyword arguments of [read_table]; an argument left at [None]
    is [None] here, or [VNone] where a value is expected. *)
Record read_args : Type := mkArgs {
  columns : option (list string);
  order_by_col : option string;
  order_by_asc : bool;
  after_last_col : option string;
  after_val : pyval;
  null_cols : option (list string);
  non_null_cols : option (list string);
  equals_col : option string;
  equals_val : pyval;
  equals_dct : option dict;
  col_in_arr : option (string * list pyval);
  between_col : option string;
  between_arr : option (list pyval);
  limit : option Z
}.

(** The defaults of the signature, lines 175-176. *)
Definition default_args : read_args :=
  {| columns := None; order_by_col := None; order_by_asc := true;
     after_last_col := None; after_val := VNone;
     null_cols := None; non_null_cols := None;
     equals_col := None; equals_val := VNone; equals_dct := None;
     col_in_arr := None; between_col := None; between_arr := None;
     limit := Some 10000 |}.

(** The same call with one keyword argument changed. *)
Definition set_between (col : option string) (arr : option (list pyval))
    (a : read_args) : read_args :=
  mkArgs (columns a) (order_by_col a) (order_by_asc a) (after_last_col a)
    (after_val a) (null_cols a) (non_null_cols a) (equals_col a)
    (equals_val a) (equals_dct a) (col_in_arr a) col arr (limit a).

Definition set_after (col : option string) (val : pyval) (a : read_args)
  : read_args :=
  mkArgs (columns a) (order_by_col a) (order_by_asc a) col val
    (null_cols a) (non_null_cols a) (equals_col a) (equals_val a)
    (equals_dct a) (col_in_arr a) (between_col a) (between_arr a) (limit a).



Definition set_equals_dct (dct : option dict) (a : read_args) : read_args :=
  mkArgs (columns a) (order_by_col a) (order_by_asc a) (after_last_col a)
    (after_val a) (null_cols a) (non_null_cols a) (equals_col a)
    (equals_val a) dct (col_in_arr a) (between_col a) (between_arr a)
    (limit a).

Definition set_limit (n : option Z) (a : read_args) : read_args :=
  mkArgs (columns a) (order_by_col a) (order_by_asc a) (after_last_col a)
    (after_val a) (null_cols a) (non_null_cols a) (equals_col a)
    (equals_val a) (equals_dct a) (col_in_arr a) (between_col a)
    (between_arr a) n.

Definition set_columns (cols : option (list string)) (a : read_args)
  : read_args :=
  mkArgs cols (order_by_col a) (order_by_asc a) (after_last_col a)
    (after_val a) (null_cols a) (non_null_cols a) (equals_col a)
    (equals_val a) (equals_dct a) (col_in_arr a) (between_col a)
    (between_arr a) (limit a).

(** [start_date, end_date = between_arr]. *)
Definition unpack2 {A} (l : list A) : result (A * A) :=
  match l with
  | [x; y] => Ok (x, y)
  | _ => Raise (ValueError "wrong number of values to unpack")
  end.

(** Lines 205-213.  The guard is [between_col and between_arr and
    len(between_arr) == 2]: [None], the empty string and the empty list
    are false.  [conditions_between] is assigned in the three branches
    only.  [between] takes any two values; [>=] and [<=] refuse
    [True]. *)
Definition between_block (tbl : Table) (a : read_args)
    (conditions : list clause) : result (list clause) :=
  match between_col a, between_arr a with
  | Some col, Some arr =>
      if negb (col =? "")%string && negb (List.length arr =? 0)%nat
         && (List.length arr =? 2)%nat
      then
        '(start_date, end_date) <- unpack2 arr ;;
        conditions_between <-
          (if truthy start_date && truthy end_date then
             c <- c_getitem tbl col ;;
             Ok (Some [Between c start_date end_date])
           else if truthy start_date then
             c <- c_getitem tbl col ;;
             cl <- col_order c OpGe start_date ;;
             Ok (Some [cl])
           else if truthy end_date then
             c <- c_getitem tbl col ;;
             cl <- col_order c OpLe end_date ;;
             Ok (Some [cl])
           else Ok None) ;;
        conditions_between <- local "conditions_between" conditions_between ;;
        Ok (conditions ++ conditions_between)
      else Ok conditions
  | _, _ => Ok conditions
  end.

(** Lines 214-221.  The [try] covers the lookup of the column and the
    comparison: whichever raises, the handler leaves [conditions] as it
    was. *)
Definition after_block (tbl : Table) (a : read_args)
    (conditions : list clause) : result (list clause) :=
  match after_last_col a with
  | Some col =>
      try_except
        (c <- c_getitem tbl col ;;
         cl <- col_order c OpGt (after_val a) ;;
         let conditions_after_last_col := [cl] in
         Ok (conditions ++ conditions_after_last_col))
        (fun _ => Ok conditions)
  | None => Ok conditions
  end.

(** Lines 222-224; [columns] is the projection list of line 196. *)
Definition null_block (tbl : Table) (a : read_args) (columns : list string)
    (conditions : list clause) : result (list clause) :=
  match null_cols a with
  | Some _ =>
      conditions_null_cols <-
        map_m (fun col_name => c <- c_getattr tbl col_name ;; Ok (col_eq c VNone))
              columns ;;
      Ok (conditions ++ conditions_null_cols)
  | None => Ok conditions
  end.

(** Lines 226-228. *)
Definition non_null_block (tbl : Table) (a : read_args)
    (columns : list string) (conditions : list clause)
  : result (list clause) :=
  match non_null_cols a with
  | Some _ =>
      conditions_non_null_cols <-
        map_m (fun col_name => c <- c_getattr tbl col_name ;; Ok (IsNotNull c))
              columns ;;
      Ok (conditions ++ conditions_non_null_cols)
  | None => Ok conditions
  end.

(** Lines 230-232.  Returns [conditions] and the local
    [conditions_equals], which the next block reads. *)
Definition equals_block (tbl : Table) (a : read_args)
    (conditions : list clause)
  : result (list clause * option (list clause)) :=
  match equals_col a with
  | Some col =>
      if negb (is_none (equals_val a)) then
        c <- c_getitem tbl col ;;
        let conditions_equals := [col_eq c (equals_val a)] in
        Ok (conditions ++ conditions_equals, Some conditions_equals)
      else Ok (conditions, None)
  | None => Ok (conditions, None)
  end.

(** Lines 233-236: the loop assigns [conditions_equals] at every entry,
    and the list is added to [conditions] once, after the loop. *)
Definition equals_dct_block (tbl : Table) (a : read_args)
    (conditions : list clause) (conditions_equals : option (list clause))
  : result (list clause) :=
  match equals_dct a with
  | Some dct =>
      conditions_equals <-
        for_in dct
          (fun _ '(equals_c, equals_v) =>
             c <- c_getitem tbl equals_c ;;
             Ok (Some [col_eq c equals_v]))
          conditions_equals ;;
      conditions_equals <- local "conditions_equals" conditions_equals ;;
      Ok (conditions ++ conditions_equals)
  | None => Ok conditions
  end.

(** Lines 237-239. *)
Definition in_arr_block (tbl : Table) (a : read_args)
    (conditions : list clause) : result (list clause) :=
  match col_in_arr a with
  | Some (col, arr) =>
      c <- c_getitem tbl col ;;
      let conditions_in_arr := [In_ c arr] in
      Ok (conditions ++ conditions_in_arr)
  | None => Ok conditions
  end.

(** Lines 204-239: the list [conditions] when line 240 is reached. *)
Definition read_table_conditions (tbl : Table) (columns : list string)
    (a : read_args) : result (list clause) :=
  let conditions := [] in
  conditions <- between_block tbl a conditions ;;
  conditions <- after_block tbl a conditions ;;
  conditions <- null_block tbl a columns conditions ;;
  conditions <- non_null_block tbl a columns conditions ;;
  '(conditions, conditions_equals) <- equals_block tbl a conditions ;;
  conditions <- equals_dct_block tbl a conditions conditions_equals ;;
  in_arr_block tbl a conditions.

(** Line 196. *)
Definition projection (tbl : Table) (a : read_args) : list string :=
  match columns a with
  | Some cols => cols
  | None => t_columns tbl
  end.

(** Lines 240-245, from the list of conditions to the statement that is
    executed. *)
Definition compose (tbl : Table) (a : read_args) (source_query : Select)
    (conditions : list clause) : result Select :=
  let source_query :=
    match conditions with
    | [] => source_query
    | _ :: _ => where_ source_query (And_ conditions)
    end in
  source_query <-
    match order_by_col a with
    | Some col =>
        c <- c_getitem tbl col ;;
        Ok (order_by source_query (if order_by_asc a then Asc c else Desc c))
    | None => Ok source_query
    end ;;
  match limit a with
  | Some n => Ok (limit_ source_query n)
  | None => Ok source_query
  end.

(** Lines 195-245: [source_query] as it is handed to [pd.read_sql]. *)
Definition read_table_query (db : database) (table_name : string)
    (a : read_args) : result Select :=
  tbl <- reflect db table_name ;;
  let columns := projection tbl a in
  columns_to_select <- map_m (c_getattr tbl) columns ;;
  let source_query := select tbl columns_to_select in
  conditions <- read_table_conditions tbl columns a ;;
  compose tbl a source_query conditions.

(** sqlalchemy.py, lines 175-249. *)
Definition read_table (db : database) (table_name : string) (a : read_args)
  : result DataFrame :=
  source_query <- read_table_query db table_name a ;;
  read_sql source_query.

(** *** batch_update_table *)

(** The names bound at module level in sqlalchemy.py (lines 1-11), and
    the builtins the method uses. *)
Definition module_globals : list string :=
  ["time"; "pd"; "sql"; "Table";
   "_DATABASE_UID"; "_DATABASE_PWD"; "_DATABASE_HOST"; "SqlAlchemy"].

Definition builtins : list string :=
  ["print"; "len"; "min"; "int"; "enumerate"; "range"].

(** Looking a global name up: module namespace, then builtins. *)
Definition lookup_name (globals : list string) (name : string)
  : result unit :=
  if existsb (String.eqb name) (globals ++ builtins) then Ok tt
  else Raise (NameError name).

(** A connection inside [with self.engine.begin() as conn]: the tables
    as last committed, and as the open transaction sees them. *)
Record connection : Type := mkConn {
  committed : database;
  pending : database
}.

Definition begin (db : database) : connection := mkConn db db.

(** [conn.commit()]: what the transaction did becomes the committed
    state, and the statements that follow open a new transaction. *)
Definition commit (conn : connection) : connection :=
  mkConn (pending conn) (pending conn).

(** Leaving the [with] block: commit on a normal exit, roll back when
    an exception passes through. *)
Definition end_with {A} (r : result A * connection) : result A * database :=
  match r with
  | (Ok a, conn) => (Ok a, pending conn)
  | (Raise e, conn) => (Raise e, committed conn)
  end.

(** A loop whose body acts on the connection. *)
Fixpoint for_in_conn {A} (xs : list A)
    (body : A -> connection -> result unit * connection)
    (conn : connection) : result unit * connection :=
  match xs with
  | [] => (Ok tt, conn)
  | x :: xs' =>
      match body x conn with
      | (Ok _, conn') => for_in_conn xs' body conn'
      | (Raise e, conn') => (Raise e, conn')
      end
  end.

(** [range(0, stop, step)] for [0 <= stop]. *)
Definition range0 (stop step : Z) : result (list Z) :=
  if step =? 0 then Raise (ValueError "range() arg 3 must not be zero")
  else if step <? 0 then Ok []
  else Ok (map (fun k => Z.of_nat k * step)
               (seq 0 (Z.to_nat ((stop + step - 1) / step)))).

(** [xs[lo:hi]] for [0 <= lo <= hi]. *)
Definition slice {A} (xs : list A) (lo hi : Z) : list A :=
  firstn (Z.to_nat (hi - lo)) (skipn (Z.to_nat lo) xs).

(** Line 302: the [UPDATE] statement of one row. *)
Definition update_stmt (tbl : Table) (row : dict) (col_merge : string)
  : result Update :=
  id <- c_getattr tbl "id" ;;
  key <- dict_getitem row col_merge ;;
  fee_price <- dict_getitem row "fee_price" ;;
  fee_value <- dict_getitem row "fee_value" ;;
  Ok (mkUpdate tbl (col_eq id key)
        [("fee_price", fee_price); ("fee_value", fee_value)]).

(** Lines 301-303. *)
Definition update_row (tbl : Table) (col_merge : string) (row : dict)
    (conn : connection) : result unit * connection :=
  match update_stmt tbl row col_merge with
  | Raise e => (Raise e, conn)
  | Ok stmt =>
      match execute_update (pending conn) stmt with
      | Raise e => (Raise e, conn)
      | Ok db' => (Ok tt, mkConn (committed conn) db')
      end
  end.

(** The tables after the [UPDATE]s of [rows], run one after the other
    on [db], when none fails. *)
Definition apply_rows (tbl : Table) (col_merge : string) (rows : list dict)
    (db : database) : result database :=
  for_in rows
    (fun db' row =>
       stmt <- update_stmt tbl row col_merge ;; execute_update db' stmt)
    db.

(** Lines 290-304, one batch.  Line 298 calls [tab], a global name of
    the module, on a text that shows the first and the last row of the
    batch; the printing itself has no effect on the tables. *)
Definition batch (globals : list string) (tbl : Table)
    (arr_rows : list dict) (col_merge : string) (batch_size : Z)
    (offset : Z) (conn : connection) : result unit * connection :=
  let total_rows := Z.of_nat (List.length arr_rows) in
  let i_low := offset in
  let i_high := offset + Z.min batch_size (total_rows - offset) in
  let sub_arr_rows := slice arr_rows i_low i_high in
  match (_ <- lookup_name globals "tab" ;;
         _ <- list_getitem sub_arr_rows 0 ;;
         list_getitem sub_arr_rows (List.length sub_arr_rows - 1)) with
  | Raise e => (Raise e, conn)
  | Ok _ =>
      match for_in_conn sub_arr_rows (update_row tbl col_merge) conn with
      | (Ok _, conn') => (Ok tt, commit conn')
      | (Raise e, conn') => (Raise e, conn')
      end
  end.

(** Lines 281-304, in a module whose global names are [globals].
    Returns the outcome of the call and the tables it leaves
    committed. *)
Definition batch_update_table_in (globals : list string) (db : database)
    (table_name : string) (arr_rows : list dict) (col_merge : string)
    (batch_size : Z) : result unit * database :=
  end_with
    (let conn := begin db in
     match (tbl <- reflect db table_name ;;
            let total_rows := Z.of_nat (List.length arr_rows) in
            _ <- (if batch_size =? 0 then Raise ZeroDivisionError
                  else Ok (total_rows / batch_size + 1)) ;;
            offsets <- range0 total_rows batch_size ;;
            Ok (tbl, offsets)) with
     | Raise e => (Raise e, conn)
     | Ok (tbl, offsets) =>
         for_in_conn offsets
           (batch globals tbl arr_rows col_merge batch_size) conn
     end).

(** sqlalchemy.py, lines 270-304. *)
Definition batch_update_table (db : database) (table_name : string)
    (arr_rows : list dict) (col_merge : string) (batch_size : Z)
  : result unit * database :=
  batch_update_table_in module_globals db table_name arr_rows col_merge
    batch_size.

(** *** clear_table *)

(** sqlalchemy.py, lines 64-73. *)
Definition clear_table (db : database) (table_name : string)
  : result unit * database :=
  end_with
    (let conn := begin db in
     match (tbl <- reflect db table_name ;;
            execute_delete (pending conn) tbl) with
     | Raise e => (Raise e, conn)
     | Ok db' => (Ok tt, mkConn (committed conn) db')
     end).

(** *** check_if_columns_in_table *)

(** sqlalchemy.py, lines 92-106.  The table is looked up in the schema
    [twoprime], whose tables are [twoprime]; the comprehension stores
    the names in the order given, a repeated name once. *)
Definition check_if_columns_in_table (twoprime : database)
    (table_name : string) (column_names : list string) : result dict :=
  tbl <- reflect twoprime table_name ;;
  let d_out :=
    fold_left
      (fun d col_name =>
         dict_setitem d col_name
           (VBool (if has_column tbl col_name then true else false)))
      column_names [] in
  Ok d_out.

(** *** get_all_val_in_table_a_not_table_b *)

(** sqlalchemy.py, lines 124-131. *)
Definition get_all_val_in_table_a_not_table_b (db : database)
    (table_a_name table_a_column table_b_name table_b_column : string)
  : result (list pyval) :=
  tbl_a <- reflect db table_a_name ;;
  tbl_b <- reflect db table_b_name ;;
  b_selected <- c_getitem tbl_b table_b_column ;;
  b_left <- c_getitem tbl_b table_b_column ;;
  a_right <- c_getitem tbl_a table_a_column ;;
  a_selected <- c_getitem tbl_a table_a_column ;;
  let query := mkNotExists tbl_a a_selected tbl_b b_selected b_left a_right in
  execute_not_exists query.

(** *** add_columns_to_table, rename_columns *)

(** [conn.execute(sql.text(stmt))] inside a transaction.  What the
    engine does with the text is not part of the code: [accepts sent
    stmt] tells whether it takes [stmt] after the statements [sent] of
    the transaction; a statement it takes is added to them, another one
    raises. *)
Definition execute_text (accepts : list string -> string -> bool)
    (sent : list string) (stmt : string) : result (list string) :=
  if accepts sent stmt then Ok (sent ++ [stmt])
  else Raise (DBAPIError stmt).

(** The text of line 122. *)
Definition add_column_text (schema table_name name type : string) : string :=
  ("ALTER TABLE " ++ schema ++ "." ++ table_name ++ " ADD COLUMN " ++ name
   ++ " " ++ type)%string.

(** sqlalchemy.py, lines 108-122; a column is a dictionary with the
    keys [name] and [type], as in the docstring.  Returns the
    statements of the transaction, which is committed when the block is
    left normally and rolled back when an exception passes. *)
Definition add_columns_to_table (accepts : list string -> string -> bool)
    (twoprime : database) (schema table_name : string)
    (columns : list str_dict) : result (list string) :=
  column_names <- map_m (fun column => str_getitem column "name") columns ;;
  check_if_in_table <-
    check_if_columns_in_table twoprime table_name column_names ;;
  for_in columns
    (fun sent column =>
       name <- str_getitem column "name" ;;
       present <- dict_getitem check_if_in_table name ;;
       match present with
       | VBool false =>
           name <- str_getitem column "name" ;;
           type <- str_getitem column "type" ;;
           execute_text accepts sent
             (add_column_text schema table_name name type)
       | _ => Ok sent
       end)
    [].

(** The text of line 265. *)
Definition rename_column_text (schema table_name old_name new_name : string)
  : string :=
  ("ALTER TABLE " ++ schema ++ "." ++ table_name ++ " RENAME COLUMN "
   ++ old_name ++ " TO " ++ new_name ++ ";")%string.

(** sqlalchemy.py, lines 251-268; the message printed for a name that
    is not a column has no effect. *)
Definition rename_columns (accepts : list string -> string -> bool)
    (db : database) (schema table_name : string) (column_dict : str_dict)
  : result (list string) :=
  tbl <- reflect db table_name ;;
  for_in column_dict
    (fun sent '(old_name, new_name) =>
       if has_column tbl old_name then
         execute_text accepts sent
           (rename_column_text schema table_name old_name new_name)
       else Ok sent)
    [].

(** The value of a key that is there. *)
Definition str_get (d : str_dict) (key : string) : string :=
  match str_getitem d key with
  | Ok v => v
  | Raise _ => EmptyString
  end.

(** *** More of the keyword arguments of read_table *)


Definition set_col_in_arr (v : option (string * list pyval)) (a : read_args)
  : read_args :=
  mkArgs (columns a) (order_by_col a) (order_by_asc a) (after_last_col a)
    (after_val a) (null_cols a) (non_null_cols a) (equals_col a)
    (equals_val a) (equals_dct a) v (between_col a) (between_arr a)
    (limit a).

Definition set_order_by (col : option string) (asc : bool) (a : read_args)
  : read_args :=
  mkArgs (columns a) col asc (after_last_col a)
    (after_val a) (null_cols a) (non_null_cols a) (equals_col a)
    (equals_val a) (equals_dct a) (col_in_arr a) (between_col a)
    (between_arr a) (limit a).

(** The ordering that line 243 asks for. *)
Definition requested_order (a : read_args) : option ordering :=
  match order_by_col a with
  | Some col => Some (if order_by_asc a then Asc col else Desc col)
  | None => None
  end.

End SqlAlchemy.

(* ================================================================= *)
(** ** Sample data *)

Module Sample.
Import Sql SqlAlchemy.

Definition record : dict :=
  [("id", VInt 1); ("blob", VObj "<memory at 0x7f>"); ("name", VStr "a")].

(** [Decimal('0')]: false, printed as [0], refused by [json.dumps]. *)
Definition decimal_zero : pyval :=
  VObject (mkObject false (Ok "0")
             (Raise (TypeError "Object is not JSON serializable"))).

Definition priced : dict :=
  [("when", VObj "2024-01-01 00:00:00"); ("price", decimal_zero)].

(** An object of a class whose [__str__] raises [ValueError]. *)
Definition unprintable : pyval :=
  VObject (mkObject true (Raise (ValueError "no text"))
             (Raise (TypeError "Object is not JSON serializable"))).

(** A table of four rows. *)
Definition fees : Table :=
  mkTable "fees" ["id"; "x"; "fee_price"; "fee_value"]
    [[VInt 1; VInt (-3); VNone; VNone];
     [VInt 3; VInt 0; VInt 7; VNone];
     [VInt 2; VInt 5; VNone; VStr "a"];
     [VInt 4; VInt 9; VNone; VNone]].

Definition db : database := [fees].

(** [read_table("fees", columns=["x", "id"], order_by_col="x",
    order_by_asc=False, after_last_col="id", after_val=1,
    non_null_cols=[], equals_dct={"id": 1, "x": 5}, limit=3)]. *)
Definition busy_args : read_args :=
  {| columns := Some ["x"; "id"]; order_by_col := Some "x";
     order_by_asc := false;
     after_last_col := Some "id"; after_val := VInt 1;
     null_cols := None; non_null_cols := Some [];
     equals_col := None; equals_val := VNone;
     equals_dct := Some [("id", VInt 1); ("x", VInt 5)];
     col_in_arr := None; between_col := None; between_arr := None;
     limit := Some 3 |}.

(** [read_table("fees", columns=["x", "id"], order_by_col="x",
    order_by_asc=False, after_last_col="id", after_val=1,
    null_cols=["fee_price"], non_null_cols=[], equals_col="id",
    equals_val=2, equals_dct={"id": 1, "x": 5}, col_in_arr=("x", [5, 9]),
    between_col="x", between_arr=[1, 9], limit=3)]: every directive at
    once. *)
Definition full_args : read_args :=
  {| columns := Some ["x"; "id"]; order_by_col := Some "x";
     order_by_asc := false;
     after_last_col := Some "id"; after_val := VInt 1;
     null_cols := Some ["fee_price"]; non_null_cols := Some [];
     equals_col := Some "id"; equals_val := VInt 2;
     equals_dct := Some [("id", VInt 1); ("x", VInt 5)];
     col_in_arr := Some ("x", [VInt 5; VInt 9]);
     between_col := Some "x"; between_arr := Some [VInt 1; VInt 9];
     limit := Some 3 |}.

(** The statement that [read_table] builds from [full_args]. *)
Definition full_query : Select :=
  {| s_from := fees; s_columns := ["x"; "id"];
     s_where :=
       Some (And_ [Between "x" (VInt 1) (VInt 9); Compare "id" OpGt (VInt 1);
                   IsNull "x"; IsNull "id"; IsNotNull "x"; IsNotNull "id";
                   Compare "id" OpEq (VInt 2); Compare "x" OpEq (VInt 5);
                   In_ "x" [VInt 5; VInt 9]]);
     s_order_by := Some (Desc "x");
     s_limit := Some 3 |}.

(** [read_table("fees", between_col="x", between_arr=[0, 5])]. *)
Definition zero_bound_args : read_args :=
  set_between (Some "x") (Some [VInt 0; VInt 5]) default_args.


(** A second table, and the schema with both. *)
Definition other : Table :=
  mkTable "other" ["k"] [[VInt 1]; [VInt 9]; [VNone]].

Definition db2 : database := [fees; other].

(** Three rows for [batch_update_table]; the last one lacks
    [fee_value]. *)
Definition updates : list dict :=
  [[("id", VInt 1); ("fee_price", VInt 10); ("fee_value", VInt 20)];
   [("id", VInt 2); ("fee_price", VInt 11); ("fee_value", VInt 21)];
   [("id", VInt 3); ("fee_price", VInt 12)]].

End Sample.

(* ================================================================= *)
(** * Properties *)

(** ** The [result] monad *)

Lemma bind_ok {A B} (m : result A) (k : A -> result B) (b : B) :
  bind m k = Ok b -> exists a, m = Ok a /\ k a = Ok b.
Proof.
  destruct m as [a | e]; simpl; intros H; [eauto | discriminate].
Qed.

Ltac bind_inv H :=
  let x := fresh "x" in
  let Hx := fresh "Hx" in
  apply bind_ok in H; destruct H as (x & Hx & H).

Lemma for_in_app {A S} (xs ys : list A) (body : S -> A -> result S) (s : S) :
  for_in (xs ++ ys) body s = (s' <- for_in xs body s ;; for_in ys body s')%py.
Proof.
  revert s; induction xs as [| x xs IH]; intros s; simpl; [reflexivity |].
  destruct (body s x); simpl; auto.
Qed.

(** ** Dictionaries *)

Lemma dict_setitem_fresh (d : dict) (key : string) (value : pyval) :
  ~ In key (keys d) -> dict_setitem d key value = d ++ [(key, value)].
Proof.
  induction d as [| [k v] d IH]; simpl; intros Hk; [reflexivity |].
  destruct (String.eqb_spec k key) as [-> | _]; [tauto |].
  rewrite IH; tauto.
Qed.

Lemma dict_setitem_here (pre post : dict) (key : string) (v value : pyval) :
  ~ In key (keys pre) ->
  dict_setitem (pre ++ (key, v) :: post) key value
  = pre ++ (key, value) :: post.
Proof.
  induction pre as [| [k0 v0] pre IH]; simpl; intros Hk.
  - now rewrite String.eqb_refl.
  - destruct (String.eqb_spec k0 key) as [-> | _]; [tauto |].
    rewrite IH; tauto.
Qed.

(** ** helpers.py *)

Section Jsonify.
Import Helpers.

Lemma bind_ret {A} (m : result A) : (x <- m ;; Ok x)%py = m.
Proof. destruct m; reflexivity. Qed.

Lemma map_m_ext_in {A B} (f g : A -> result B) (l : list A) :
  (forall x, In x l -> f x = g x) -> map_m f l = map_m g l.
Proof.
  induction l as [| x l IH]; intros H; simpl; [reflexivity |].
  rewrite H by (simpl; auto).
  rewrite IH by (intros; apply H; simpl; auto). reflexivity.
Qed.

Lemma map_m_length {A B} (f : A -> result B) (l : list A) (out : list B) :
  map_m f l = Ok out -> List.length out = List.length l.
Proof.
  revert out; induction l as [| x l IH]; simpl; intros out H.
  - now injection H as <-.
  - bind_inv H. bind_inv H. injection H as <-. simpl.
    f_equal. now apply IH.
Qed.

Lemma map_m_fixed {A} (f : A -> result A) (l : list A) :
  (forall x, In x l -> f x = Ok x) -> map_m f l = Ok l.
Proof.
  induction l as [| x l IH]; intros H; simpl; [reflexivity |].
  rewrite H by (simpl; auto). simpl.
  rewrite IH by (intros; apply H; simpl; auto). reflexivity.
Qed.

(** One turn of the loop of [jsonify_dict] stores the converted value,
    or raises what [str] raises. *)
Lemma jsonify_dict_body (d_out : dict) (key : string) (value : pyval) :
  try_except
    (_ <- json_dumps value ;; Ok (dict_setitem d_out key value))%py
    (fun _ =>
       text <- py_str value ;; Ok (dict_setitem d_out key (VStr text)))%py
  = (v <- jsonify_value value ;; Ok (dict_setitem d_out key v))%py.
Proof.
  unfold jsonify_value, json_representable.
  destruct (json_dumps value); simpl; [reflexivity |].
  destruct (py_str value); reflexivity.
Qed.

Lemma jsonify_dict_loop (d_in d_out : dict) :
  NoDup (keys (d_out ++ d_in)) ->
  for_in d_in
    (fun d_out '(key, value) =>
       try_except
         (_ <- json_dumps value ;; Ok (dict_setitem d_out key value))%py
         (fun _ =>
            text <- py_str value ;;
            Ok (dict_setitem d_out key (VStr text)))%py)
    d_out
  = (fields <- map_m jsonify_field d_in ;; Ok (d_out ++ fields))%py.
Proof.
  revert d_out; induction d_in as [| [k v] d_in IH]; intros d_out Hnd; simpl.
  - now rewrite app_nil_r.
  - rewrite jsonify_dict_body. unfold jsonify_field at 1. simpl.
    destruct (jsonify_value v) as [v' | e]; simpl; [| reflexivity].
    assert (Hk : ~ In k (keys d_out)).
    { unfold keys in *. rewrite map_app in Hnd. simpl in Hnd.
      apply NoDup_remove_2 in Hnd. intros Hin; apply Hnd, in_or_app; auto. }
    rewrite dict_setitem_fresh by exact Hk.
    rewrite IH.
    + destruct (map_m jsonify_field d_in); simpl; [| reflexivity].
      now rewrite <- app_assoc.
    + unfold keys in *. rewrite <- app_assoc, map_app; simpl.
      rewrite map_app in Hnd; exact Hnd.
Qed.

Lemma records_setitem_at (l1 l2 : list dict) (d : dict) (key : string)
    (value : pyval) :
  records_setitem (l1 ++ d :: l2) (List.length l1) key value
  = Ok (l1 ++ dict_setitem d key value :: l2).
Proof.
  unfold records_setitem, list_getitem.
  rewrite nth_error_app2, Nat.sub_diag by lia; simpl.
  induction l1 as [| x l1 IH]; simpl; [reflexivity |].
  now rewrite IH.
Qed.

Lemma jsonify_records_inner (l1 l2 : list dict) (todo pre : dict) :
  NoDup (keys (pre ++ todo)) ->
  for_in todo
    (fun arr '(key, value) =>
       try_except
         (_ <- json_dumps value ;;
          records_setitem arr (List.length l1) key value)%py
         (fun _ =>
            text <- py_str value ;;
            records_setitem arr (List.length l1) key (VStr text))%py)
    (l1 ++ (pre ++ todo) :: l2)
  = (fields <- map_m jsonify_field todo ;;
     Ok (l1 ++ (pre ++ fields) :: l2))%py.
Proof.
  revert pre; induction todo as [| [k v] todo IH]; intros pre Hnd; simpl.
  - reflexivity.
  - assert (Hk : ~ In k (keys pre)).
    { unfold keys in *. rewrite map_app in Hnd. simpl in Hnd.
      apply NoDup_remove_2 in Hnd. intros Hin; apply Hnd, in_or_app; auto. }
    assert (Hstep :
      try_except
        (_ <- json_dumps v ;;
         records_setitem (l1 ++ (pre ++ (k, v) :: todo) :: l2)
           (List.length l1) k v)%py
        (fun _ =>
           text <- py_str v ;;
           records_setitem (l1 ++ (pre ++ (k, v) :: todo) :: l2)
             (List.length l1) k (VStr text))%py
      = (v' <- jsonify_value v ;;
         Ok (l1 ++ ((pre ++ [(k, v')]) ++ todo) :: l2))%py).
    { unfold jsonify_value, json_representable.
      destruct (json_dumps v); simpl.
      - rewrite records_setitem_at.
        rewrite (dict_setitem_here pre todo k v) by exact Hk.
        now rewrite <- app_assoc.
      - destruct (py_str v) as [text | e']; simpl; [| reflexivity].
        rewrite records_setitem_at.
        rewrite (dict_setitem_here pre todo k v) by exact Hk.
        now rewrite <- app_assoc. }
    rewrite Hstep. unfold jsonify_field at 1. simpl.
    destruct (jsonify_value v) as [v' | e]; simpl; [| reflexivity].
    rewrite IH.
    + destruct (map_m jsonify_field todo); simpl; [| reflexivity].
      now rewrite <- app_assoc.
    + unfold keys in *. rewrite <- app_assoc, map_app; simpl.
      rewrite map_app in Hnd; exact Hnd.
Qed.

Lemma jsonify_records_outer (rs l1 : list dict) :
  Forall (fun d => NoDup (keys d)) rs ->
  for_in (combine (seq (List.length l1) (List.length rs)) rs)
    (fun arr '(i, d_in) =>
       for_in d_in
         (fun arr '(key, value) =>
            try_except
              (_ <- json_dumps value ;;
               records_setitem arr i key value)%py
              (fun _ =>
                 text <- py_str value ;;
                 records_setitem arr i key (VStr text))%py)
         arr)
    (l1 ++ rs)
  = (out <- map_m (map_m jsonify_field) rs ;; Ok (l1 ++ out))%py.
Proof.
  revert l1; induction rs as [| d rs IH]; intros l1 Hnd;
    cbn [List.length seq combine for_in map_m].
  - reflexivity.
  - inversion Hnd as [| ? ? Hd Hrs]; subst.
    pose proof (jsonify_records_inner l1 rs d [] Hd) as Hin.
    cbn [app] in Hin.
    match goal with
    | |- bind ?m _ = _ =>
        replace m
          with (fields <- map_m jsonify_field d ;; Ok (l1 ++ fields :: rs))%py
          by (symmetry; exact Hin)
    end.
    destruct (map_m jsonify_field d) as [fields | e]; cbn [bind];
      [| reflexivity].
    replace (l1 ++ fields :: rs) with ((l1 ++ [fields]) ++ rs)
      by now rewrite <- app_assoc.
    replace (S (List.length l1)) with (List.length (l1 ++ [fields]))
      by (rewrite length_app; simpl; lia).
    rewrite IH by exact Hrs.
    destruct (map_m (map_m jsonify_field) rs); cbn [bind]; [| reflexivity].
    now rewrite <- app_assoc.
Qed.

Lemma jsonify_dict_fields (d_in : dict) :
  NoDup (keys d_in) -> jsonify_dict d_in = map_m jsonify_field d_in.
Proof.
  intros Hd. unfold jsonify_dict. rewrite jsonify_dict_loop by exact Hd.
  cbn [app]. apply bind_ret.
Qed.

Lemma jsonify_records_fields (records_arr : list dict) :
  Forall (fun d => NoDup (keys d)) records_arr ->
  jsonify_records records_arr = map_m (map_m jsonify_field) records_arr.
Proof.
  intros Hrs. unfold jsonify_records, enumerate.
  etransitivity; [exact (jsonify_records_outer records_arr [] Hrs) |].
  cbn [app]. apply bind_ret.
Qed.

Lemma map_m_keys (d d' : dict) :
  map_m jsonify_field d = Ok d' -> keys d' = keys d.
Proof.
  revert d'; induction d as [| [k v] d IH]; simpl; intros d' H.
  - now injection H as <-.
  - bind_inv H. bind_inv H. injection H as <-.
    unfold jsonify_field in Hx. bind_inv Hx. injection Hx as <-.
    simpl. f_equal. now apply IH.
Qed.

(** C7, as the code has it.  For a record and for a list of records
    (dictionaries, whose keys are distinct), [jsonify_dict] and
    [jsonify_records] treat the fields one after the other: a field
    whose value [json.dumps] accepts is kept as it is; a field whose
    value it refuses holds the [str] of that value, under the same key
    and at the same place; and when [str] raises for such a value, the
    helper raises that error, with no record returned.  When [str]
    returns for every value that [json.dumps] refuses, both helpers
    return. *)
Theorem jsonify_replaces_unrepresentable (d_in : dict)
    (records_arr : list dict) :
  NoDup (keys d_in) ->
  Forall (fun d => NoDup (keys d)) records_arr ->
  let convert := fun kv : string * pyval =>
    match json_dumps (snd kv) with
    | Ok _ => Ok kv
    | Raise _ =>
        match py_str (snd kv) with
        | Ok text => Ok (fst kv, VStr text)
        | Raise e => Raise e
        end
    end in
  jsonify_dict d_in = map_m convert d_in /\
  jsonify_records records_arr = map_m (map_m convert) records_arr /\
  ((forall kv, In kv d_in -> is_ok (convert kv) = true) ->
   exists d_out, jsonify_dict d_in = Ok d_out /\ keys d_out = keys d_in) /\
  ((forall d kv, In d records_arr -> In kv d -> is_ok (convert kv) = true) ->
   exists out, jsonify_records records_arr = Ok out /\
               map keys out = map keys records_arr).
Proof.
  intros Hd Hrs convert.
  assert (Hconv : forall kv, jsonify_field kv = convert kv).
  { intros [k v]. unfold jsonify_field, jsonify_value, json_representable.
    subst convert. simpl.
    destruct (json_dumps v); simpl; [reflexivity |].
    destruct (py_str v); reflexivity. }
  assert (Hdict : forall d, NoDup (keys d) ->
                            jsonify_dict d = map_m convert d).
  { intros d Hnd. rewrite jsonify_dict_fields by exact Hnd.
    apply map_m_ext_in. intros kv _. apply Hconv. }
  assert (Hok : forall d, (forall kv, In kv d -> is_ok (convert kv) = true) ->
                          exists d', map_m jsonify_field d = Ok d').
  { induction d as [| kv d IH]; intros H; simpl; [eauto |].
    rewrite Hconv. specialize (H kv (or_introl eq_refl)) as Hkv.
    destruct (convert kv) as [kv' | e]; [| discriminate]. simpl.
    destruct IH as [d' ->]; [intros; apply H; simpl; auto |].
    simpl. eauto. }
  split; [now apply Hdict |]. split; [| split].
  - rewrite jsonify_records_fields by exact Hrs.
    apply map_m_ext_in. intros d _.
    apply map_m_ext_in. intros kv _. apply Hconv.
  - intros Hall. destruct (Hok d_in Hall) as [d' Hd'].
    exists d'. rewrite jsonify_dict_fields by exact Hd.
    split; [exact Hd' | now apply map_m_keys].
  - intros Hall. rewrite jsonify_records_fields by exact Hrs.
    clear Hrs Hdict. induction records_arr as [| d rs IH]; simpl; [eauto |].
    destruct (Hok d) as [d' Hd']; [intros; eapply Hall; simpl; eauto |].
    rewrite Hd'. simpl.
    destruct IH as (out & -> & Hkeys);
      [intros; eapply Hall; simpl; eauto |].
    simpl. eexists. split; [reflexivity |]. simpl.
    rewrite Hkeys. f_equal. now apply map_m_keys.
Qed.

Lemma jsonify_replaces_unrepresentable_witness :
  jsonify_dict Sample.record
  = Ok [("id", VInt 1); ("blob", VStr "<memory at 0x7f>"); ("name", VStr "a")]
  /\
  jsonify_records [Sample.record; Sample.priced]
  = Ok [[("id", VInt 1); ("blob", VStr "<memory at 0x7f>");
         ("name", VStr "a")];
        [("when", VStr "2024-01-01 00:00:00"); ("price", VStr "0")]].
Proof.
  destruct (jsonify_replaces_unrepresentable Sample.record
              [Sample.record; Sample.priced]) as (Hd & Hr & _).
  - repeat constructor; simpl; intuition discriminate.
  - repeat constructor; simpl; intuition discriminate.
  - split; [rewrite Hd | rewrite Hr]; reflexivity.
Defined.

(** An integer too long to be converted is refused by [json.dumps] and
    by [str] alike. *)
Lemma jsonify_long_int (key : string) (z : Z) :
  too_long z = true ->
  jsonify_dict [(key, VInt z)] = Raise digits_error /\
  jsonify_records [[(key, VInt z)]] = Raise digits_error.
Proof.
  intros H. unfold jsonify_dict, jsonify_records, enumerate.
  cbn [for_in List.length seq combine json_dumps py_str try_except bind].
  rewrite H. split; reflexivity.
Qed.

(** C7, as it is stated, fails when [str] raises for a value that
    [json.dumps] refuses: the handler of line 36 (line 46) is outside
    any [try], and the record is not returned. *)
Lemma jsonify_str_failure :
  json_dumps Sample.unprintable
  = Raise (TypeError "Object is not JSON serializable") /\
  jsonify_dict [("id", VInt 1); ("blob", Sample.unprintable)]
  = Raise (ValueError "no text") /\
  jsonify_records [[("id", VInt 1); ("blob", Sample.unprintable)]]
  = Raise (ValueError "no text").
Proof. split; [| split]; reflexivity. Qed.

End Jsonify.

(** ** Columns *)

Section Columns.
Import Sql.

Lemma c_getitem_ok (tbl : Table) (name c : string) :
  c_getitem tbl name = Ok c -> c = name /\ has_column tbl name = true.
Proof.
  unfold c_getitem; destruct (has_column tbl name); intros H;
    inversion H; auto.
Qed.

Lemma c_getitem_has (tbl : Table) (name : string) :
  has_column tbl name = true -> c_getitem tbl name = Ok name.
Proof. unfold c_getitem; now intros ->. Qed.

Lemma c_getitem_missing (tbl : Table) (name : string) :
  has_column tbl name = false -> c_getitem tbl name = Raise (KeyError name).
Proof. unfold c_getitem; now intros ->. Qed.

Lemma c_getattr_ok (tbl : Table) (name c : string) :
  c_getattr tbl name = Ok c -> c = name /\ has_column tbl name = true.
Proof.
  unfold c_getattr; destruct (has_column tbl name); intros H;
    inversion H; auto.
Qed.

Lemma map_m_getattr_ok (tbl : Table) (names cs : list string) :
  map_m (c_getattr tbl) names = Ok cs ->
  cs = names /\ forallb (has_column tbl) names = true.
Proof.
  revert cs; induction names as [| n names IH]; simpl; intros cs H.
  - inversion H; auto.
  - bind_inv H. apply c_getattr_ok in Hx as [-> Hn].
    bind_inv H. apply IH in Hx as [-> Hns].
    inversion H; subst. rewrite Hn, Hns; auto.
Qed.

Lemma map_m_getattr_has (tbl : Table) (names : list string) :
  forallb (has_column tbl) names = true ->
  map_m (c_getattr tbl) names = Ok names.
Proof.
  induction names as [| n names IH]; simpl; intros H; [reflexivity |].
  apply andb_prop in H as [Hn Hns].
  unfold c_getattr at 1; rewrite Hn; simpl. now rewrite IH.
Qed.

Lemma map_m_getattr_then (tbl : Table) (names : list string)
    (f : string -> clause) :
  map_m (fun n => c <- c_getattr tbl n ;; Ok (f c))%py names
  = (cs <- map_m (c_getattr tbl) names ;; Ok (map f cs))%py.
Proof.
  induction names as [| n names IH]; simpl; [reflexivity |].
  destruct (c_getattr tbl n); simpl; [| reflexivity].
  rewrite IH. destruct (map_m (c_getattr tbl) names); reflexivity.
Qed.

End Columns.

(** ** The engine *)

Section Engine.
Import Sql.

Lemma In_insert_row (le : row -> row -> bool) (x y : row) (l : list row) :
  In x (insert_row le y l) <-> x = y \/ In x l.
Proof.
  induction l as [| z l IH]; simpl.
  - intuition.
  - destruct (le y z); simpl; [intuition |].
    rewrite IH; intuition.
Qed.

Lemma In_sort_rows (le : row -> row -> bool) (x : row) (l : list row) :
  In x (sort_rows le l) <-> In x l.
Proof.
  induction l as [| y l IH]; simpl; [tauto |].
  rewrite In_insert_row, IH; intuition.
Qed.

Lemma length_insert_row (le : row -> row -> bool) (y : row) (l : list row) :
  List.length (insert_row le y l) = S (List.length l).
Proof.
  induction l as [| z l IH]; simpl; [reflexivity |].
  destruct (le y z); simpl; [reflexivity | now rewrite IH].
Qed.

Lemma length_sort_rows (le : row -> row -> bool) (l : list row) :
  List.length (sort_rows le l) = List.length l.
Proof.
  induction l as [| y l IH]; simpl; [reflexivity |].
  now rewrite length_insert_row, IH.
Qed.

Lemma and3_true (x y : option bool) :
  and3 x y = Some true <-> x = Some true /\ y = Some true.
Proof.
  destruct x as [[|] |], y as [[|] |]; simpl; intuition discriminate.
Qed.

Lemma holds_true (cols : list string) (cl : clause) (r : row) :
  holds cols cl r = true <-> eval cols r cl = Some true.
Proof.
  unfold holds; destruct (eval cols r cl) as [[|] |];
    intuition discriminate.
Qed.

(** A row passes an AND exactly when it passes every member. *)
Lemma holds_And (cols : list string) (cs : list clause) (r : row) :
  holds cols (And_ cs) r = true <->
  forall cl, In cl cs -> holds cols cl r = true.
Proof.
  rewrite holds_true.
  change (eval cols r (And_ cs))
    with (fold_right (fun cl' acc => and3 (eval cols r cl') acc)
            (Some true) cs).
  induction cs as [| c cs IH]; simpl.
  - split; [intros _ cl [] | reflexivity].
  - rewrite and3_true, IH, <- holds_true. split.
    + intros [Hc Hcs] cl [<- | Hin]; auto.
    + intros H; split; [apply H; auto | intros cl Hin; apply H; auto].
Qed.

(** BETWEEN is the inclusive range. *)
Lemma holds_Between (cols : list string) (c : string) (lo hi : pyval)
    (r : row) :
  holds cols (Between c lo hi) r
  = holds cols (Compare c OpGe lo) r && holds cols (Compare c OpLe hi) r.
Proof.
  unfold holds; simpl.
  destruct (sql_cmp OpGe (cell cols r c) lo) as [[|] |],
           (sql_cmp OpLe (cell cols r c) hi) as [[|] |]; reflexivity.
Qed.

Lemma sql_cmp_int (op : cmp_op) (x y : Z) :
  sql_cmp op (VInt x) (VInt y)
  = Some match op with
         | OpEq => x =? y
         | OpGt => y <? x
         | OpGe => y <=? x
         | OpLe => x <=? y
         end.
Proof.
  unfold sql_cmp; simpl. f_equal.
  destruct op; simpl;
    [ destruct (Z.eqb_spec x y) | destruct (Z.ltb_spec y x)
    | destruct (Z.leb_spec y x) | destruct (Z.leb_spec x y) ];
    destruct (Z.compare_spec x y); simpl; try reflexivity; lia.
Qed.

Lemma In_firstn {A} (n : nat) (l : list A) (x : A) :
  In x (firstn n l) -> In x l.
Proof.
  intros H. rewrite <- (firstn_skipn n l). apply in_or_app; auto.
Qed.

Lemma limited_ok (q : Select) (rows : list row) :
  limited q = Ok rows ->
  (forall r, In r rows -> In r (filtered q)) /\
  (forall n, s_limit q = Some n -> (Z.of_nat (List.length rows) <= n)) /\
  (s_limit q = None -> List.length rows = List.length (filtered q)).
Proof.
  unfold limited. 
  assert (Hord : forall r, In r (ordered q) -> In r (filtered q)).
  { unfold ordered; destruct (s_order_by q); [| auto].
    intros r; now rewrite In_sort_rows. }
  assert (Hlen : List.length (ordered q) = List.length (filtered q)).
  { unfold ordered; destruct (s_order_by q); [| auto].
    apply length_sort_rows. }
  destruct (s_limit q) as [n |].
  - destruct (Z.ltb_spec n 0); [discriminate |].
    intros [= <-]. split; [| split].
    + intros r Hr. apply Hord. eapply In_firstn; eassumption.
    + intros n' [= <-]. rewrite length_firstn. lia.
    + discriminate.
  - intros [= <-]. split; [exact Hord | split]; [discriminate | auto].
Qed.

(** The rows of the result are stored rows that pass the WHERE clause,
    cut down to the selected columns. *)
Lemma execute_ok (q : Select) (rows : list row) :
  execute q = Ok rows ->
  (forall out, In out rows ->
     exists r, In r (t_rows (s_from q)) /\
               out = project (t_columns (s_from q)) (s_columns q) r /\
               forall cl, s_where q = Some cl ->
                          holds (t_columns (s_from q)) cl r = true) /\
  (forall n, s_limit q = Some n -> Z.of_nat (List.length rows) <= n) /\
  (s_limit q = None -> List.length rows = List.length (filtered q)).
Proof.
  unfold execute; intros H. bind_inv H. inversion H; subst; clear H.
  apply limited_ok in Hx as (Hin & Hlim & Hall).
  rewrite length_map. split; [| split]; [| exact Hlim | exact Hall].
  intros out Hout. apply in_map_iff in Hout as (r & <- & Hr).
  apply Hin in Hr. exists r. unfold filtered in Hr.
  destruct (s_where q) as [w |].
  - apply filter_In in Hr as [Hr Hw]. split; [exact Hr |].
    split; [reflexivity |]. now intros cl [= <-].
  - split; [exact Hr |]. split; [reflexivity | discriminate].
Qed.

End Engine.

(** ** read_table: the list of conditions *)

Section Conditions.
Import Sql SqlAlchemy.

Variable tbl : Table.
Variable a : read_args.

(** Every block only appends to [conditions]: what it appends is what it
    yields from the empty list. *)
Lemma between_block_appends (conditions : list clause) :
  between_block tbl a conditions
  = (extra <- between_block tbl a [] ;; Ok (conditions ++ extra))%py.
Proof.
  unfold between_block.
  destruct (between_col a) as [col |]; [| simpl; now rewrite ?app_nil_r].
  destruct (between_arr a) as [arr |]; [| simpl; now rewrite ?app_nil_r].
  destruct (_ && _ && _); [| simpl; now rewrite ?app_nil_r].
  destruct (unpack2 arr) as [[s e] | x]; simpl; [| reflexivity].
  destruct (if truthy s && truthy e then _ else _) as [[cb |] | x];
    reflexivity.
Qed.

Lemma after_block_appends (conditions : list clause) :
  after_block tbl a conditions
  = (extra <- after_block tbl a [] ;; Ok (conditions ++ extra))%py.
Proof.
  unfold after_block.
  destruct (after_last_col a) as [col |]; [| simpl; now rewrite ?app_nil_r].
  destruct (c_getitem tbl col) as [c | x]; simpl;
    [| now rewrite ?app_nil_r].
  destruct (col_order c OpGt (after_val a)); simpl;
    [reflexivity | now rewrite ?app_nil_r].
Qed.

Lemma null_block_appends (columns : list string) (conditions : list clause) :
  null_block tbl a columns conditions
  = (extra <- null_block tbl a columns [] ;; Ok (conditions ++ extra))%py.
Proof.
  unfold null_block.
  destruct (null_cols a); [| simpl; now rewrite ?app_nil_r].
  destruct (map_m _ columns); reflexivity.
Qed.

Lemma non_null_block_appends (columns : list string)
    (conditions : list clause) :
  non_null_block tbl a columns conditions
  = (extra <- non_null_block tbl a columns [] ;;
     Ok (conditions ++ extra))%py.
Proof.
  unfold non_null_block.
  destruct (non_null_cols a); [| simpl; now rewrite ?app_nil_r].
  destruct (map_m _ columns); reflexivity.
Qed.

Lemma equals_block_appends (conditions : list clause) :
  equals_block tbl a conditions
  = ('(extra, conditions_equals) <- equals_block tbl a [] ;;
     Ok (conditions ++ extra, conditions_equals))%py.
Proof.
  unfold equals_block.
  destruct (equals_col a) as [col |]; [| simpl; now rewrite ?app_nil_r].
  destruct (negb _); [| simpl; now rewrite ?app_nil_r].
  destruct (c_getitem tbl col); reflexivity.
Qed.

Lemma equals_dct_block_appends (conditions : list clause)
    (conditions_equals : option (list clause)) :
  equals_dct_block tbl a conditions conditions_equals
  = (extra <- equals_dct_block tbl a [] conditions_equals ;;
     Ok (conditions ++ extra))%py.
Proof.
  unfold equals_dct_block.
  destruct (equals_dct a) as [dct |]; [| simpl; now rewrite ?app_nil_r].
  destruct (for_in dct _ conditions_equals) as [[ce |] | x]; reflexivity.
Qed.

Lemma in_arr_block_appends (conditions : list clause) :
  in_arr_block tbl a conditions
  = (extra <- in_arr_block tbl a [] ;; Ok (conditions ++ extra))%py.
Proof.
  unfold in_arr_block.
  destruct (col_in_arr a) as [[col arr] |]; [| simpl; now rewrite ?app_nil_r].
  destruct (c_getitem tbl col); reflexivity.
Qed.

(** The list of conditions is the concatenation, in the order of the
    source, of what each directive yields. *)
Lemma read_table_conditions_concat (columns : list string) :
  read_table_conditions tbl columns a
  = (c_between <- between_block tbl a [] ;;
     c_after <- after_block tbl a [] ;;
     c_null <- null_block tbl a columns [] ;;
     c_non_null <- non_null_block tbl a columns [] ;;
     '(c_equals, conditions_equals) <- equals_block tbl a [] ;;
     c_dct <- equals_dct_block tbl a [] conditions_equals ;;
     c_in <- in_arr_block tbl a [] ;;
     Ok (c_between ++ c_after ++ c_null ++ c_non_null ++ c_equals
         ++ c_dct ++ c_in))%py.
Proof.
  unfold read_table_conditions.
  destruct (between_block tbl a []) as [cb | x]; simpl; [| reflexivity].
  rewrite after_block_appends.
  destruct (after_block tbl a []) as [ca | x]; simpl; [| reflexivity].
  rewrite null_block_appends.
  destruct (null_block tbl a columns []) as [cn | x]; simpl; [| reflexivity].
  rewrite non_null_block_appends.
  destruct (non_null_block tbl a columns []) as [cnn | x]; simpl;
    [| reflexivity].
  rewrite equals_block_appends.
  destruct (equals_block tbl a []) as [[ce loc] | x]; simpl; [| reflexivity].
  rewrite equals_dct_block_appends.
  destruct (equals_dct_block tbl a [] loc) as [cd | x]; simpl;
    [| reflexivity].
  rewrite in_arr_block_appends.
  destruct (in_arr_block tbl a []) as [ci | x]; simpl; [| reflexivity].
  now rewrite <- !app_assoc.
Qed.

(** What each block yields. *)
Lemma col_order_ok (c : string) (op : cmp_op) (v : pyval) (cl : clause) :
  col_order c op v = Ok cl -> cl = Compare c op v.
Proof. destruct v; simpl; intros H; inversion H; reflexivity. Qed.

Lemma after_block_yield :
  after_block tbl a []
  = Ok (match after_last_col a with
        | Some col =>
            if has_column tbl col
            then match after_val a with
                 | VNone | VBool _ => []
                 | v => [Compare col OpGt v]
                 end
            else []
        | None => []
        end).
Proof.
  unfold after_block, c_getitem.
  destruct (after_last_col a) as [col |]; [| reflexivity].
  destruct (has_column tbl col); [| reflexivity].
  destruct (after_val a); reflexivity.
Qed.

Lemma between_block_ok (extra : list clause) :
  between_block tbl a [] = Ok extra ->
  extra = match between_col a, between_arr a with
          | Some col, Some [start_date; end_date] =>
              if (col =? "")%string then []
              else if truthy start_date && truthy end_date
                   then [Between col start_date end_date]
              else if truthy start_date
                   then [Compare col OpGe start_date]
              else [Compare col OpLe end_date]
          | _, _ => []
          end.
Proof.
  unfold between_block.
  destruct (between_col a) as [col |]; [| now intros [= <-]].
  destruct (between_arr a) as [arr |]; [| now intros [= <-]].
  destruct arr as [| s [| e [| x arr]]]; cbn [List.length Nat.eqb];
    rewrite ?andb_false_r; try (now intros [= <-]).
  destruct (col =? "")%string; cbn [negb andb unpack2 bind];
    [now intros [= <-] |].
  intros H. bind_inv H. bind_inv H. injection H as <-.
  destruct x as [cb |]; [| discriminate]. injection Hx0 as <-.
  destruct (truthy s), (truthy e); cbn [andb] in Hx |- *;
    try discriminate; bind_inv Hx; apply c_getitem_ok in Hx0 as [-> _].
  - now injection Hx as <-.
  - bind_inv Hx. apply col_order_ok in Hx0 as ->. now injection Hx as <-.
  - bind_inv Hx. apply col_order_ok in Hx0 as ->. now injection Hx as <-.
Qed.

Lemma equals_block_ok (extra : list clause) (loc : option (list clause)) :
  equals_block tbl a [] = Ok (extra, loc) ->
  extra = match equals_col a with
          | Some col =>
              if is_none (equals_val a) then []
              else [col_eq col (equals_val a)]
          | None => []
          end /\
  loc = match extra with [] => None | _ :: _ => Some extra end.
Proof.
  unfold equals_block.
  destruct (equals_col a) as [col |]; [| now intros [= <- <-]].
  destruct (is_none (equals_val a)); cbn [negb]; [now intros [= <- <-] |].
  intros H. bind_inv H. apply c_getitem_ok in Hx as [-> _].
  now injection H as <- <-.
Qed.

Lemma equals_dct_loop_rev (dct : dict) (ce ce' : option (list clause)) :
  for_in dct
    (fun _ '(equals_c, equals_v) =>
       c <- c_getitem tbl equals_c ;; Ok (Some [col_eq c equals_v]))%py
    ce = Ok ce' ->
  ce' = match rev dct with
        | (k, v) :: _ => Some [col_eq k v]
        | [] => ce
        end.
Proof.
  revert ce'. induction dct as [| [k v] init IH] using rev_ind; intros ce' H.
  - now injection H as <-.
  - rewrite for_in_app in H. bind_inv H. simpl in H.
    bind_inv H. bind_inv Hx0. apply c_getitem_ok in Hx1 as [-> _].
    injection Hx0 as <-. injection H as <-.
    rewrite rev_app_distr. reflexivity.
Qed.

Lemma equals_dct_block_ok (loc : option (list clause))
    (extra : list clause) :
  equals_dct_block tbl a [] loc = Ok extra ->
  match equals_dct a with
  | Some dct =>
      match rev dct with
      | (k, v) :: _ => extra = [col_eq k v]
      | [] => loc = Some extra
      end
  | None => extra = []
  end.
Proof.
  unfold equals_dct_block.
  destruct (equals_dct a) as [dct |]; [| now intros [= <-]].
  intros H. bind_inv H. bind_inv H. injection H as <-.
  apply equals_dct_loop_rev in Hx. subst x.
  destruct (rev dct) as [| [k v] rest].
  - destruct loc; [now injection Hx0 as <- | discriminate].
  - now injection Hx0 as <-.
Qed.

Lemma in_arr_block_ok (extra : list clause) :
  in_arr_block tbl a [] = Ok extra ->
  extra = match col_in_arr a with
          | Some (col, arr) => [In_ col arr]
          | None => []
          end.
Proof.
  unfold in_arr_block.
  destruct (col_in_arr a) as [[col arr] |]; [| now intros [= <-]].
  intros H. bind_inv H. apply c_getitem_ok in Hx as [-> _].
  now injection H as <-.
Qed.

Lemma null_block_yield (columns : list string) :
  forallb (has_column tbl) columns = true ->
  null_block tbl a columns []
  = Ok (match null_cols a with
        | Some _ => map IsNull columns
        | None => []
        end).
Proof.
  intros Hc; unfold null_block.
  destruct (null_cols a); [| reflexivity].
  rewrite (map_m_getattr_then tbl columns (fun c => col_eq c VNone)).
  now rewrite map_m_getattr_has.
Qed.

Lemma non_null_block_yield (columns : list string) :
  forallb (has_column tbl) columns = true ->
  non_null_block tbl a columns []
  = Ok (match non_null_cols a with
        | Some _ => map IsNotNull columns
        | None => []
        end).
Proof.
  intros Hc; unfold non_null_block.
  destruct (non_null_cols a); [| reflexivity].
  rewrite (map_m_getattr_then tbl columns IsNotNull).
  now rewrite map_m_getattr_has.
Qed.

(** The loop of lines 234-235 keeps the condition of the entry it
    visited last. *)
Lemma equals_dct_loop_ok (dct : dict) (ce : option (list clause)) :
  forallb (has_column tbl) (keys dct) = true ->
  exists ce',
    for_in dct
      (fun _ '(equals_c, equals_v) =>
         c <- c_getitem tbl equals_c ;; Ok (Some [col_eq c equals_v]))%py
      ce = Ok ce'.
Proof.
  revert ce; induction dct as [| [k v] dct IH]; simpl; intros ce H.
  - eauto.
  - apply andb_prop in H as [Hk Hd].
    rewrite c_getitem_has by exact Hk; simpl. now apply IH.
Qed.

Lemma equals_dct_loop_columns (dct : dict) (ce ce' : option (list clause)) :
  for_in dct
    (fun _ '(equals_c, equals_v) =>
       c <- c_getitem tbl equals_c ;; Ok (Some [col_eq c equals_v]))%py
    ce = Ok ce' ->
  forallb (has_column tbl) (keys dct) = true.
Proof.
  revert ce; induction dct as [| [k v] dct IH]; simpl; intros ce H.
  - reflexivity.
  - bind_inv H. bind_inv Hx. apply c_getitem_ok in Hx0 as [_ ->].
    simpl. eapply IH; eassumption.
Qed.

Lemma equals_dct_loop_last (init : dict) (k : string) (v : pyval)
    (ce : option (list clause)) :
  forallb (has_column tbl) (keys (init ++ [(k, v)])) = true ->
  for_in (init ++ [(k, v)])
    (fun _ '(equals_c, equals_v) =>
       c <- c_getitem tbl equals_c ;; Ok (Some [col_eq c equals_v]))%py
    ce = Ok (Some [col_eq k v]).
Proof.
  intros H. unfold keys in H. rewrite map_app, forallb_app in H.
  apply andb_prop in H as [Hinit Hk]. simpl in Hk.
  rewrite andb_true_r in Hk.
  rewrite for_in_app.
  destruct (equals_dct_loop_ok init ce Hinit) as [ce' ->]; simpl.
  now rewrite c_getitem_has.
Qed.

Lemma col_eq_atomic (c : string) (v : pyval) : atomic (col_eq c v) = true.
Proof. unfold col_eq; destruct (is_none v); reflexivity. Qed.

(** No block yields a connective. *)
Lemma between_block_atomic (extra : list clause) :
  between_block tbl a [] = Ok extra -> forallb atomic extra = true.
Proof.
  intros H. apply between_block_ok in H. subst extra.
  destruct (between_col a) as [col |]; [| reflexivity].
  destruct (between_arr a) as [[| s [| e [| x arr]]] |]; try reflexivity.
  destruct (col =? "")%string, (truthy s), (truthy e); reflexivity.
Qed.

Lemma equals_block_atomic (extra : list clause)
    (loc : option (list clause)) :
  equals_block tbl a [] = Ok (extra, loc) ->
  forallb atomic extra = true /\
  (forall l, loc = Some l -> forallb atomic l = true).
Proof.
  unfold equals_block.
  destruct (equals_col a) as [col |];
    [| intros [= <- <-]; split; [reflexivity | discriminate]].
  destruct (negb _);
    [| intros [= <- <-]; split; [reflexivity | discriminate]].
  destruct (c_getitem tbl col); simpl; [| discriminate].
  intros [= <- <-]; simpl; rewrite col_eq_atomic; split; [reflexivity |].
  intros l [= <-]; simpl; now rewrite col_eq_atomic.
Qed.

Lemma equals_dct_loop_atomic (dct : dict) (ce ce' : option (list clause)) :
  (forall l, ce = Some l -> forallb atomic l = true) ->
  for_in dct
    (fun _ '(equals_c, equals_v) =>
       c <- c_getitem tbl equals_c ;; Ok (Some [col_eq c equals_v]))%py
    ce = Ok ce' ->
  forall l, ce' = Some l -> forallb atomic l = true.
Proof.
  revert ce; induction dct as [| [k v] dct IH]; simpl; intros ce Hce H.
  - inversion H; subst; exact Hce.
  - bind_inv H. bind_inv Hx. inversion Hx; subst.
    eapply IH; [| eassumption].
    intros l [= <-]; simpl; now rewrite col_eq_atomic.
Qed.

Lemma equals_dct_block_atomic (loc : option (list clause))
    (extra : list clause) :
  (forall l, loc = Some l -> forallb atomic l = true) ->
  equals_dct_block tbl a [] loc = Ok extra -> forallb atomic extra = true.
Proof.
  intros Hloc; unfold equals_dct_block.
  destruct (equals_dct a) as [dct |]; [| now intros [= <-]].
  intros H. bind_inv H. bind_inv H. inversion H; subst; simpl.
  destruct x as [l |]; [| discriminate]. inversion Hx0; subst.
  eapply equals_dct_loop_atomic; eauto.
Qed.

Lemma in_arr_block_atomic (extra : list clause) :
  in_arr_block tbl a [] = Ok extra -> forallb atomic extra = true.
Proof.
  unfold in_arr_block.
  destruct (col_in_arr a) as [[col arr] |]; [| now intros [= <-]].
  destruct (c_getitem tbl col); simpl; intros H; inversion H; reflexivity.
Qed.

Lemma map_atomic (f : string -> clause) (l : list string) :
  (forall c, atomic (f c) = true) -> forallb atomic (map f l) = true.
Proof.
  intros Hf; induction l; simpl; [reflexivity |]. now rewrite Hf.
Qed.

Lemma read_table_conditions_atomic (columns : list string)
    (conditions : list clause) :
  forallb (has_column tbl) columns = true ->
  read_table_conditions tbl columns a = Ok conditions ->
  forallb atomic conditions = true.
Proof.
  intros Hc H. rewrite read_table_conditions_concat in H.
  bind_inv H. apply between_block_atomic in Hx.
  rewrite after_block_yield in H; simpl in H.
  rewrite null_block_yield, non_null_block_yield in H by exact Hc.
  simpl in H. bind_inv H. destruct x0 as [ce loc].
  apply equals_block_atomic in Hx0 as [Hce Hloc].
  bind_inv H. apply (equals_dct_block_atomic _ _ Hloc) in Hx0.
  bind_inv H. apply in_arr_block_atomic in Hx1.
  inversion H; subst.
  rewrite !forallb_app, Hx, Hce, Hx0, Hx1; simpl.
  rewrite !andb_true_r.
  repeat (apply andb_true_intro; split).
  - destruct (after_last_col a) as [col |]; [| reflexivity].
    destruct (has_column tbl col); [| reflexivity].
    destruct (after_val a); reflexivity.
  - destruct (null_cols a); [now apply map_atomic | reflexivity].
  - destruct (non_null_cols a); [now apply map_atomic | reflexivity].
Qed.

End Conditions.

(** ** read_table: from the conditions to the statement *)

Section Composition.
Import Sql SqlAlchemy.

Lemma compose_ok (tbl : Table) (a : read_args) (q0 q : Select)
    (conditions : list clause) :
  compose tbl a q0 conditions = Ok q ->
  s_from q = s_from q0 /\ s_columns q = s_columns q0 /\
  s_where q = match conditions with
              | [] => s_where q0
              | _ :: _ => Some (And_ conditions)
              end /\
  s_order_by q = match order_by_col a with
                 | Some col => Some (if order_by_asc a then Asc col else Desc col)
                 | None => s_order_by q0
                 end /\
  s_limit q = match limit a with
              | Some n => Some n
              | None => s_limit q0
              end.
Proof.
  unfold compose; intros H. bind_inv H.
  assert (Hq : q = match limit a with
                   | Some n => limit_ x n
                   | None => x
                   end)
    by (destruct (limit a); inversion H; reflexivity).
  clear H.
  assert (Hxq : s_from x = s_from q0 /\ s_columns x = s_columns q0 /\
                s_where x = match conditions with
                            | [] => s_where q0
                            | _ :: _ => Some (And_ conditions)
                            end /\
                s_order_by x = match order_by_col a with
                               | Some col =>
                                   Some (if order_by_asc a then Asc col
                                         else Desc col)
                               | None => s_order_by q0
                               end /\
                s_limit x = s_limit q0).
  { destruct (order_by_col a) as [col |].
    - bind_inv Hx. apply c_getitem_ok in Hx0 as [-> _].
      inversion Hx; subst; destruct conditions; simpl; auto.
    - inversion Hx; subst; destruct conditions; simpl; auto. }
  destruct Hxq as (H1 & H2 & H3 & H4 & H5).
  subst q; destruct (limit a); simpl; auto.
Qed.

(** C1.  When [read_table] gets as far as a statement, the list
    [conditions] holds, in this order and with nothing else: the range,
    [>=] or [<=] condition of the between directive; [col > value] of
    the after-cursor directive, unless it was dropped; [IS NULL] on
    every selected column for the null directive; [IS NOT NULL] on
    every selected column for the non-null directive; [col == value] of
    the equals directive; the condition of the last entry of the
    equals-map; [col IN values] of the membership directive.  None of
    them is built with AND, OR or NOT; the statement has no WHERE
    clause when the list is empty and the AND of the list otherwise; it
    is ordered exactly when [order_by_col] is given, limited exactly
    when [limit] is given, and it is this statement that is
    executed. *)
Theorem read_table_conjunction (db : database) (table_name : string)
    (a : read_args) (q : Select) :
  read_table_query db table_name a = Ok q ->
  exists tbl,
    reflect db table_name = Ok tbl /\
    let equal := fun (c : string) (v : pyval) =>
      match v with
      | VNone => IsNull c
      | _ => Compare c OpEq v
      end in
    let c_between :=
      match between_col a, between_arr a with
      | Some col, Some [start_date; end_date] =>
          if (col =? "")%string then []
          else if truthy start_date && truthy end_date
               then [Between col start_date end_date]
          else if truthy start_date then [Compare col OpGe start_date]
          else [Compare col OpLe end_date]
      | _, _ => []
      end in
    let c_after :=
      match after_last_col a with
      | Some col =>
          if has_column tbl col
          then match after_val a with
               | VNone | VBool _ => []
               | v => [Compare col OpGt v]
               end
          else []
      | None => []
      end in
    let c_null :=
      match null_cols a with
      | Some _ => map IsNull (projection tbl a)
      | None => []
      end in
    let c_non_null :=
      match non_null_cols a with
      | Some _ => map IsNotNull (projection tbl a)
      | None => []
      end in
    let c_equals :=
      match equals_col a, equals_val a with
      | Some _, VNone | None, _ => []
      | Some col, v => [equal col v]
      end in
    let c_dct :=
      match equals_dct a with
      | Some dct =>
          match rev dct with
          | (k, v) :: _ => [equal k v]
          | [] => c_equals
          end
      | None => []
      end in
    let c_in :=
      match col_in_arr a with
      | Some (col, arr) => [In_ col arr]
      | None => []
      end in
    let conditions :=
      c_between ++ c_after ++ c_null ++ c_non_null ++ c_equals ++ c_dct
      ++ c_in in
    read_table_conditions tbl (projection tbl a) a = Ok conditions /\
    forallb atomic conditions = true /\
    s_from q = tbl /\ s_columns q = projection tbl a /\
    s_where q = match conditions with
                | [] => None
                | _ :: _ => Some (And_ conditions)
                end /\
    s_order_by q = match order_by_col a with
                   | Some col =>
                       Some (if order_by_asc a then Asc col else Desc col)
                   | None => None
                   end /\
    s_limit q = limit a /\
    read_table db table_name a = read_sql q.
Proof.
  intros H. pose proof H as Hq.
  unfold read_table_query in H.
  bind_inv H. rename x into tbl. bind_inv H.
  apply map_m_getattr_ok in Hx0 as [-> Hcols].
  bind_inv H. rename x into conditions.
  exists tbl. refine (conj Hx _).
  apply compose_ok in H as (Hf & Hs & Hw & Ho & Hl);
    simpl in Hf, Hs, Hw, Ho, Hl.
  pose proof (read_table_conditions_atomic tbl a _ conditions Hcols Hx0)
    as Hatomic.
  assert (Heq : forall c v,
             col_eq c v = match v with
                          | VNone => IsNull c
                          | _ => Compare c OpEq v
                          end)
    by (intros c v; destruct v; reflexivity).
  pose proof Hx0 as Hc. rewrite read_table_conditions_concat in Hc.
  bind_inv Hc. apply between_block_ok in Hx1.
  rewrite after_block_yield in Hc. cbn [bind] in Hc.
  rewrite null_block_yield, non_null_block_yield in Hc by exact Hcols.
  cbn [bind] in Hc.
  apply bind_ok in Hc as ([ce loc] & Hequals & Hc).
  apply equals_block_ok in Hequals as [Hce Hloc].
  apply bind_ok in Hc as (cd & Hdct0 & Hc).
  apply equals_dct_block_ok in Hdct0.
  apply bind_ok in Hc as (ci & Hin & Hc).
  apply in_arr_block_ok in Hin.
  injection Hc as Hc.
  intros equal c_between c_after c_null c_non_null c_equals c_dct c_in
    conds.
  assert (Hequals : ce = c_equals).
  { subst c_equals equal. rewrite Hce.
    destruct (equals_col a) as [col |]; [| reflexivity].
    destruct (equals_val a); reflexivity. }
  assert (Hdct : cd = c_dct).
  { subst c_dct. destruct (equals_dct a) as [dct |]; [| exact Hdct0].
    destruct (rev dct) as [| [k v] rest].
    - rewrite Hloc in Hdct0. rewrite <- Hequals.
      destruct ce; [discriminate | congruence].
    - subst equal. cbv beta. now rewrite <- Heq. }
  assert (Hconds : conditions = conds).
  { subst conds. rewrite <- Hc, Hequals, Hdct, Hx1, Hin. reflexivity. }
  rewrite <- Hconds.
  repeat (split; [assumption |]).
  split; [| unfold read_table; now rewrite Hq].
  rewrite Hl; destruct (limit a); reflexivity.
Qed.

Lemma read_table_conjunction_witness :
  read_table_query Sample.db "fees" Sample.full_args = Ok Sample.full_query
  /\ s_where Sample.full_query
     = Some (And_ [Between "x" (VInt 1) (VInt 9); Compare "id" OpGt (VInt 1);
                   IsNull "x"; IsNull "id"; IsNotNull "x"; IsNotNull "id";
                   Compare "id" OpEq (VInt 2); Compare "x" OpEq (VInt 5);
                   In_ "x" [VInt 5; VInt 9]])
  /\ s_order_by Sample.full_query = Some (Desc "x")
  /\ s_limit Sample.full_query = Some 3
  /\ read_table Sample.db "fees" Sample.full_args
     = read_sql Sample.full_query.
Proof.
  assert (Hq : read_table_query Sample.db "fees" Sample.full_args
               = Ok Sample.full_query) by reflexivity.
  destruct (read_table_conjunction Sample.db "fees" Sample.full_args
              Sample.full_query Hq) as (tbl & Ht & H).
  change (Ok Sample.fees = Ok tbl) in Ht. injection Ht as <-.
  cbv zeta in H.
  destruct H as (_ & _ & _ & _ & Hw & Ho & Hl & Hr).
  split; [exact Hq |]. split; [exact Hw |]. split; [exact Ho |].
  split; [exact Hl | exact Hr].
Defined.

(** The rows that the statement of [read_table] selects. *)
Lemma holds_And_forallb (cols : list string) (cs : list clause) (r : row) :
  holds cols (And_ cs) r = forallb (fun cl => holds cols cl r) cs.
Proof.
  destruct (forallb (fun cl => holds cols cl r) cs) eqn:Hf.
  - apply holds_And. intros cl Hin.
    rewrite forallb_forall in Hf. now apply Hf.
  - destruct (holds cols (And_ cs) r) eqn:Hh; [| reflexivity].
    rewrite <- Hf. symmetry. apply forallb_forall.
    intros cl Hin. now apply (proj1 (holds_And cols cs r)).
Qed.

Lemma filter_all {A} (l : list A) : filter (fun _ => true) l = l.
Proof. induction l; simpl; congruence. Qed.

Lemma filtered_conditions (q : Select) (conditions : list clause) :
  s_where q = match conditions with
              | [] => None
              | _ :: _ => Some (And_ conditions)
              end ->
  filtered q
  = filter (fun r => forallb (fun cl => holds (t_columns (s_from q)) cl r)
                       conditions)
      (t_rows (s_from q)).
Proof.
  unfold filtered; intros ->. destruct conditions as [| c cs].
  - simpl. now rewrite filter_all.
  - apply filter_ext. intros r. apply holds_And_forallb.
Qed.

(** What a successful [read_table] returns. *)
Lemma read_table_ok (db : database) (table_name : string) (a : read_args)
    (df : DataFrame) :
  read_table db table_name a = Ok df ->
  exists tbl conditions,
    reflect db table_name = Ok tbl /\
    forallb (has_column tbl) (projection tbl a) = true /\
    read_table_conditions tbl (projection tbl a) a = Ok conditions /\
    df_columns df = projection tbl a /\
    (forall out, In out (df_rows df) ->
       exists r, In r (t_rows tbl) /\
                 out = project (t_columns tbl) (projection tbl a) r /\
                 forall cl, In cl conditions ->
                            holds (t_columns tbl) cl r = true) /\
    (forall n, limit a = Some n -> Z.of_nat (List.length (df_rows df)) <= n) /\
    (limit a = None ->
     List.length (df_rows df)
     = List.length
         (filter (fun r => forallb (fun cl => holds (t_columns tbl) cl r)
                             conditions)
            (t_rows tbl))).
Proof.
  unfold read_table; intros H. bind_inv H. rename x into q.
  unfold read_sql in H. bind_inv H. inversion H; subst; clear H; simpl.
  apply execute_ok in Hx0 as (Hrows & Hlim & Hall).
  unfold read_table_query in Hx.
  bind_inv Hx. rename x0 into tbl. bind_inv Hx.
  apply map_m_getattr_ok in Hx1 as [-> Hcols].
  bind_inv Hx. rename x0 into conditions.
  apply compose_ok in Hx as (Hf & Hc & Hw & _ & Hl); simpl in *.
  rewrite Hf, Hc in *.
  exists tbl, conditions. repeat (split; [assumption || reflexivity |]).
  split; [| split].
  - intros out Hout. destruct (Hrows out Hout) as (r & Hr & -> & Hcl).
    exists r. split; [exact Hr |]. split; [reflexivity |].
    intros cl Hin. destruct conditions as [| c cs]; [destruct Hin |].
    apply (proj1 (holds_And (t_columns tbl) (c :: cs) r)); [| exact Hin].
    now apply Hcl.
  - intros n Hn. apply Hlim. rewrite Hl, Hn. reflexivity.
  - intros Hn. rewrite Hall by (rewrite Hl, Hn; reflexivity).
    rewrite (filtered_conditions q conditions) by exact Hw.
    now rewrite Hf.
Qed.

End Composition.

(** ** read_table: the between directive *)

Section BetweenDirective.
Import Sql SqlAlchemy.

Lemma between_block_yield (tbl : Table) (a : read_args) (col : string)
    (start_date end_date : pyval) :
  between_col a = Some col -> col <> "" ->
  between_arr a = Some [start_date; end_date] ->
  between_block tbl a []
  = if truthy start_date && truthy end_date then
      c <- c_getitem tbl col ;; Ok [Between c start_date end_date]
    else if truthy start_date then
      c <- c_getitem tbl col ;; cl <- col_order c OpGe start_date ;; Ok [cl]
    else if truthy end_date then
      c <- c_getitem tbl col ;; cl <- col_order c OpLe end_date ;; Ok [cl]
    else Raise (UnboundLocalError "conditions_between").
Proof.
  intros Hc Hne Ha. unfold between_block. rewrite Hc, Ha.
  apply String.eqb_neq in Hne. rewrite Hne; simpl.
  destruct (truthy start_date), (truthy end_date); simpl;
    try reflexivity; destruct (c_getitem tbl col) as [c | x]; simpl;
    try reflexivity;
    match goal with
    | |- context [col_order ?c ?op ?v] => destruct (col_order c op v)
    end; reflexivity.
Qed.


(** C2, at an input where the code departs from it.  The bounds are
    tested for their truth value, not against [None] as the values of
    the other directives are, so a bound that counts as absent need not
    be [None]: with the bounds 0 and 5, both present, the condition is
    [x <= 5] alone and not the range from 0 to 5, and the row whose [x]
    is -3 is returned, which the range excludes. *)
Theorem between_zero_start_bound_dropped :
  is_none (VInt 0) = false /\ is_none (VInt 5) = false /\
  read_table_conditions Sample.fees
    (projection Sample.fees Sample.zero_bound_args) Sample.zero_bound_args
  = Ok [Compare "x" OpLe (VInt 5)] /\
  read_table_conditions Sample.fees
    (projection Sample.fees Sample.zero_bound_args) Sample.zero_bound_args
  <> Ok [Between "x" (VInt 0) (VInt 5)] /\
  (exists df,
      read_table Sample.db "fees" Sample.zero_bound_args = Ok df /\
      In [VInt 1; VInt (-3); VNone; VNone] (df_rows df) /\
      holds (t_columns Sample.fees) (Between "x" (VInt 0) (VInt 5))
        [VInt 1; VInt (-3); VNone; VNone] = false).
Proof.
  split; [reflexivity |]. split; [reflexivity |]. split; [reflexivity |].
  split; [discriminate |].
  eexists. split; [reflexivity |]. split; [simpl; auto | reflexivity].
Qed.



End BetweenDirective.

(** ** read_table: the null and non-null directives *)

Section NullDirectives.
Import Sql SqlAlchemy.






End NullDirectives.

(** ** read_table: the equals-map directive *)

Section EqualsMap.
Import Sql SqlAlchemy.

Lemma conditions_without_equals_dct (tbl : Table) (columns : list string)
    (a : read_args) :
  read_table_conditions tbl columns a
  = (c_between <- between_block tbl a [] ;;
     c_after <- after_block tbl a [] ;;
     c_null <- null_block tbl a columns [] ;;
     c_non_null <- non_null_block tbl a columns [] ;;
     '(c_equals, conditions_equals) <- equals_block tbl a [] ;;
     c_dct <- equals_dct_block tbl a [] conditions_equals ;;
     c_in <- in_arr_block tbl a [] ;;
     Ok ((c_between ++ c_after ++ c_null ++ c_non_null ++ c_equals)
         ++ c_dct ++ c_in)).
Proof.
  rewrite read_table_conditions_concat.
  destruct (between_block tbl a []) as [cb | x]; simpl; [| reflexivity].
  destruct (after_block tbl a []) as [ca | x]; simpl; [| reflexivity].
  destruct (null_block tbl a columns []) as [cn | x]; simpl; [| reflexivity].
  destruct (non_null_block tbl a columns []) as [cnn | x]; simpl;
    [| reflexivity].
  destruct (equals_block tbl a []) as [[ce loc] | x]; simpl; [| reflexivity].
  destruct (equals_dct_block tbl a [] loc) as [cd | x]; simpl;
    [| reflexivity].
  destruct (in_arr_block tbl a []) as [ci | x]; simpl; [| reflexivity].
  now rewrite <- !app_assoc.
Qed.

(** C4.  With an equals-map whose last entry is [(k, v)] and whose keys
    all name columns, the block of the directive adds the one condition
    [k == v] to the list, whatever the other entries are; the list of
    the whole call is the list of the same call without the map, with
    this one condition inserted. *)
Theorem equals_dct_last_entry (tbl : Table) (columns : list string)
    (a : read_args) (init : dict) (k : string) (v : pyval) :
  equals_dct a = Some (init ++ [(k, v)]) ->
  forallb (has_column tbl) (keys (init ++ [(k, v)])) = true ->
  (forall conditions loc,
      equals_dct_block tbl a conditions loc
      = Ok (conditions ++ [col_eq k v])) /\
  (forall rest,
      read_table_conditions tbl columns (set_equals_dct None a) = Ok rest ->
      exists pre post,
        rest = pre ++ post /\
        read_table_conditions tbl columns a
        = Ok (pre ++ [col_eq k v] ++ post)).
Proof.
  intros Hd Hk.
  assert (Hblock : forall conditions loc,
             equals_dct_block tbl a conditions loc
             = Ok (conditions ++ [col_eq k v])).
  { intros conditions loc. unfold equals_dct_block. rewrite Hd.
    rewrite (equals_dct_loop_last tbl init k v loc Hk). reflexivity. }
  split; [exact Hblock |].
  intros rest Hrest.
  rewrite conditions_without_equals_dct in Hrest |- *.
  change (between_block tbl (set_equals_dct None a) [])
    with (between_block tbl a []) in Hrest.
  change (after_block tbl (set_equals_dct None a) [])
    with (after_block tbl a []) in Hrest.
  change (null_block tbl (set_equals_dct None a) columns [])
    with (null_block tbl a columns []) in Hrest.
  change (non_null_block tbl (set_equals_dct None a) columns [])
    with (non_null_block tbl a columns []) in Hrest.
  change (equals_block tbl (set_equals_dct None a) [])
    with (equals_block tbl a []) in Hrest.
  change (in_arr_block tbl (set_equals_dct None a) [])
    with (in_arr_block tbl a []) in Hrest.
  destruct (between_block tbl a []) as [cb | x]; simpl in *; [| discriminate].
  destruct (after_block tbl a []) as [ca | x]; simpl in *; [| discriminate].
  destruct (null_block tbl a columns []) as [cn | x]; simpl in *;
    [| discriminate].
  destruct (non_null_block tbl a columns []) as [cnn | x]; simpl in *;
    [| discriminate].
  destruct (equals_block tbl a []) as [[ce loc] | x]; simpl in *;
    [| discriminate].
  rewrite Hblock; simpl.
  change (equals_dct_block tbl (set_equals_dct None a) [] loc)
    with (@Ok (list clause) []) in Hrest. simpl in Hrest.
  destruct (in_arr_block tbl a []) as [ci | x]; simpl in *; [| discriminate].
  inversion Hrest; subst.
  exists (cb ++ ca ++ cn ++ cnn ++ ce), ci. split; reflexivity.
Qed.

(** [equals_dct={"id": 1, "x": 5}] on the sample table: only [x == 5]
    is added. *)
Lemma equals_dct_last_entry_witness :
  equals_dct_block Sample.fees Sample.busy_args [] None
  = Ok [Compare "x" OpEq (VInt 5)].
Proof.
  apply (equals_dct_last_entry Sample.fees ["x"; "id"] Sample.busy_args
           [("id", VInt 1)] "x" (VInt 5) eq_refl eq_refl).
Defined.

End EqualsMap.

(** ** read_table: the after-cursor directive *)

Section AfterCursor.
Import Sql SqlAlchemy.









End AfterCursor.

(** ** read_table: limit and columns *)

Section LimitAndColumns.
Import Sql SqlAlchemy.

Lemma length_project (cols columns : list string) (r : row) :
  List.length (project cols columns r) = List.length columns.
Proof. unfold project. apply length_map. Qed.

(** A call with no directive and no ordering. *)
Lemma read_table_plain (db : database) (table_name : string) (tbl : Table)
    (cols : option (list string)) (lim : option Z) :
  let a := set_columns cols (set_limit lim default_args) in
  reflect db table_name = Ok tbl ->
  forallb (has_column tbl) (projection tbl a) = true ->
  read_table db table_name a
  = match lim with
    | None =>
        Ok (mkDataFrame (projection tbl a)
              (map (project (t_columns tbl) (projection tbl a)) (t_rows tbl)))
    | Some n =>
        if n <? 0 then Raise (DBAPIError "LIMIT must not be negative")
        else Ok (mkDataFrame (projection tbl a)
                   (map (project (t_columns tbl) (projection tbl a))
                      (firstn (Z.to_nat n) (t_rows tbl))))
    end.
Proof.
  intros a Ht Hcols. unfold read_table, read_table_query.
  rewrite Ht; simpl. rewrite map_m_getattr_has by exact Hcols; simpl.
  destruct lim as [n |]; simpl; [| reflexivity].
  unfold read_sql, execute, limited; simpl.
  destruct (n <? 0); reflexivity.
Qed.

(** The limit is the last thing added to the statement. *)
Lemma read_table_query_limit (db : database) (table_name : string)
    (a : read_args) (lim : option Z) :
  read_table_query db table_name (set_limit lim a)
  = (q <- read_table_query db table_name (set_limit None a) ;;
     Ok (match lim with Some n => limit_ q n | None => q end)).
Proof.
  unfold read_table_query.
  destruct (reflect db table_name) as [tbl | x]; cbn [bind]; [| reflexivity].
  change (projection tbl (set_limit lim a)) with (projection tbl a).
  change (projection tbl (set_limit None a)) with (projection tbl a).
  destruct (map_m (c_getattr tbl) (projection tbl a)) as [cs | x];
    cbn [bind]; [| reflexivity].
  change (read_table_conditions tbl (projection tbl a) (set_limit lim a))
    with (read_table_conditions tbl (projection tbl a) a).
  change (read_table_conditions tbl (projection tbl a) (set_limit None a))
    with (read_table_conditions tbl (projection tbl a) a).
  destruct (read_table_conditions tbl (projection tbl a) a) as [cl | x];
    cbn [bind]; [| reflexivity].
  unfold compose.
  change (order_by_col (set_limit lim a)) with (order_by_col a).
  change (order_by_col (set_limit None a)) with (order_by_col a).
  change (order_by_asc (set_limit lim a)) with (order_by_asc a).
  change (order_by_asc (set_limit None a)) with (order_by_asc a).
  change (limit (set_limit lim a)) with lim.
  change (limit (set_limit None a)) with (@None Z).
  destruct (order_by_col a) as [col |]; cbn [bind].
  - destruct (c_getitem tbl col); cbn [bind]; [| reflexivity].
    destruct lim; reflexivity.
  - destruct lim; reflexivity.
Qed.

Lemma read_sql_limit (q : Select) (n : Z) (df : DataFrame) :
  s_limit q = None -> 0 <= n ->
  read_sql q = Ok df ->
  read_sql (limit_ q n)
  = Ok (mkDataFrame (df_columns df) (firstn (Z.to_nat n) (df_rows df))).
Proof.
  intros Hl Hn. unfold read_sql, execute, limited. rewrite Hl.
  cbn [bind s_limit limit_ s_columns s_from].
  intros [= <-]. cbn [df_columns df_rows].
  destruct (Z.ltb_spec n 0); [lia |]. cbn [bind].
  now rewrite firstn_map.
Qed.

(** C6.  A frame returned by [read_table] has the requested columns, or
    the columns of the table in table order when none is requested;
    each of its rows has one value per column, taken from one stored
    row; with [limit=n] it has at most [n] rows.  The default limit is
    10000.  [limit=None] cuts nothing: what the same call returns with
    a limit [n] is the first [n] rows of what it returns with
    [limit=None].  With no directive, a table of the schema and
    selected columns that the table has and that are not names of the
    column collection itself, the call returns the first [limit] rows
    of the table (all of them when [limit] is [None]), in table
    order. *)
Theorem read_table_limit_and_columns (db : database) (table_name : string)
    (a : read_args) :
  (forall df,
      read_table db table_name a = Ok df ->
      exists tbl,
        reflect db table_name = Ok tbl /\
        df_columns df = match columns a with
                        | Some cols => cols
                        | None => t_columns tbl
                        end /\
        (forall out, In out (df_rows df) ->
           List.length out = List.length (df_columns df) /\
           exists r, In r (t_rows tbl) /\
                     out = map (cell (t_columns tbl) r) (df_columns df)) /\
        (forall n, limit a = Some n ->
                   Z.of_nat (List.length (df_rows df)) <= n)) /\
  limit default_args = Some 10000 /\
  (forall df_all n,
      read_table db table_name (set_limit None a) = Ok df_all -> 0 <= n ->
      read_table db table_name (set_limit (Some n) a)
      = Ok (mkDataFrame (df_columns df_all)
              (firstn (Z.to_nat n) (df_rows df_all)))) /\
  (forall tbl cols lim,
      reflect db table_name = Ok tbl ->
      forallb (has_column tbl)
        (match cols with Some cs => cs | None => t_columns tbl end) = true ->
      forallb (fun c => negb (collection_member c))
        (match cols with Some cs => cs | None => t_columns tbl end) = true ->
      match lim with Some n => 0 <= n | None => True end ->
      read_table db table_name (set_columns cols (set_limit lim default_args))
      = Ok (mkDataFrame
              (match cols with Some cs => cs | None => t_columns tbl end)
              (map (fun r =>
                      map (cell (t_columns tbl) r)
                        (match cols with
                         | Some cs => cs
                         | None => t_columns tbl
                         end))
                 (match lim with
                  | Some n => firstn (Z.to_nat n) (t_rows tbl)
                  | None => t_rows tbl
                  end)))).
Proof.
  split; [| split; [reflexivity | split]].
  - intros df Hdf.
    apply read_table_ok in Hdf
      as (tbl & conditions & Ht & _ & Hcs & Hcols & Hrows & Hlim & _).
    exists tbl. split; [assumption |]. split; [assumption |].
    split; [| exact Hlim].
    intros out Hout. destruct (Hrows out Hout) as (r & Hr & -> & _).
    rewrite Hcols. split; [apply length_project |].
    exists r. split; [exact Hr | reflexivity].
  - intros df_all n Hall Hn. unfold read_table in *.
    rewrite read_table_query_limit.
    destruct (read_table_query db table_name (set_limit None a))
      as [q | x] eqn:Hq; cbn [bind] in *; [| discriminate].
    apply read_sql_limit; [| exact Hn | exact Hall].
    unfold read_table_query in Hq.
    apply bind_ok in Hq as (tbl & _ & Hq).
    apply bind_ok in Hq as (cs & _ & Hq).
    apply bind_ok in Hq as (cl & _ & Hq).
    now apply compose_ok in Hq as (_ & _ & _ & _ & Hl).
  - intros tbl cols lim Ht Hcols _ Hlim.
    rewrite (read_table_plain db table_name tbl cols lim Ht Hcols).
    destruct lim as [n |]; [| reflexivity].
    destruct (Z.ltb_spec n 0); [lia | reflexivity].
Qed.

Lemma read_table_limit_and_columns_witness :
  read_table Sample.db "fees"
    (set_columns (Some ["x"; "id"]) (set_limit (Some 2) default_args))
  = Ok (mkDataFrame ["x"; "id"] [[VInt (-3); VInt 1]; [VInt 0; VInt 3]])
  /\ read_table Sample.db "fees"
       (set_columns None (set_limit None default_args))
     = Ok (mkDataFrame ["id"; "x"; "fee_price"; "fee_value"]
             (t_rows Sample.fees))
  /\ read_table Sample.db "fees"
       (set_limit (Some 1) (set_after (Some "id") (VInt 1) default_args))
     = Ok (mkDataFrame ["id"; "x"; "fee_price"; "fee_value"]
             (firstn 1 [[VInt 3; VInt 0; VInt 7; VNone];
                        [VInt 2; VInt 5; VNone; VStr "a"];
                        [VInt 4; VInt 9; VNone; VNone]])).
Proof.
  split; [| split].
  - apply (proj2 (proj2 (proj2 (read_table_limit_and_columns Sample.db "fees"
                                  default_args)))
             Sample.fees (Some ["x"; "id"]) (Some 2) eq_refl eq_refl eq_refl).
    lia.
  - apply (proj2 (proj2 (proj2 (read_table_limit_and_columns Sample.db "fees"
                                  default_args)))
             Sample.fees None None eq_refl eq_refl eq_refl).
    exact I.
  - apply (proj1 (proj2 (proj2
                    (read_table_limit_and_columns Sample.db "fees"
                       (set_after (Some "id") (VInt 1) default_args))))
             (mkDataFrame ["id"; "x"; "fee_price"; "fee_value"]
                [[VInt 3; VInt 0; VInt 7; VNone];
                 [VInt 2; VInt 5; VNone; VStr "a"];
                 [VInt 4; VInt 9; VNone; VNone]])
             1).
    + reflexivity.
    + lia.
Defined.

End LimitAndColumns.

(** ** The order of ORDER BY *)

Section Ordering.
Import Sql.

Lemma string_leb_total (s t : string) :
  string_leb s t = true \/ string_leb t s = true.
Proof.
  unfold string_leb.
  destruct (OrdersEx.String_as_OT.compare_spec s t) as [Heq | Hlt | Hgt];
    auto.
  right. unfold OrdersEx.String_as_OT.lt in Hgt. now rewrite Hgt.
Qed.

Lemma string_leb_trans (s t u : string) :
  string_leb s t = true -> string_leb t u = true -> string_leb s u = true.
Proof.
  unfold string_leb.
  destruct (OrdersEx.String_as_OT.compare_spec s t) as [-> | Hst | Hts];
    [auto | | discriminate].
  destruct (OrdersEx.String_as_OT.compare_spec t u) as [<- | Htu | Hut];
    [| | discriminate].
  - unfold OrdersEx.String_as_OT.lt in Hst. now rewrite Hst.
  - intros _ _.
    assert (Hsu : OrdersEx.String_as_OT.lt s u)
      by (eapply (@RelationClasses.StrictOrder_Transitive _ _
                    OrdersEx.String_as_OT.lt_strorder); eassumption).
    unfold OrdersEx.String_as_OT.lt in Hsu. now rewrite Hsu.
Qed.

Lemma order_leb_total (a b : pyval) :
  order_leb a b = true \/ order_leb b a = true.
Proof.
  destruct a as [| x | x | s | s | o], b as [| y | y | t | t | o'];
    simpl; auto.
  - destruct x, y; auto.
  - destruct (Z.leb_spec x y); auto. right. apply Z.leb_le. lia.
  - apply string_leb_total.
  - apply string_leb_total.
Qed.

Lemma order_leb_trans (a b c : pyval) :
  order_leb a b = true -> order_leb b c = true -> order_leb a c = true.
Proof.
  destruct a as [| x | x | s | s | o], b as [| y | y | t | t | o'],
           c as [| z | z | u | u | o'']; simpl;
    try reflexivity; try discriminate.
  - destruct x, y, z; auto.
  - rewrite !Z.leb_le. lia.
  - apply string_leb_trans.
  - apply string_leb_trans.
Qed.

Variable le : row -> row -> bool.
Hypothesis le_total : forall x y, le x y = true \/ le y x = true.
Hypothesis le_trans :
  forall x y z, le x y = true -> le y z = true -> le x z = true.

Lemma insert_row_ascending (x : row) (l : list row) :
  ascending le l -> ascending le (insert_row le x l).
Proof.
  induction l as [| y l IH]; simpl.
  - intros _. split; [intros ? [] | exact I].
  - intros [Hy Hl]. destruct (le x y) eqn:Hxy; simpl.
    + split; [| split; assumption].
      intros z [<- | Hz]; [exact Hxy |].
      eapply le_trans; [exact Hxy | now apply Hy].
    + split; [| now apply IH].
      intros z Hz. apply In_insert_row in Hz as [-> | Hz]; [| now apply Hy].
      destruct (le_total x y) as [H | H]; [congruence | exact H].
Qed.

Lemma sort_rows_ascending (l : list row) : ascending le (sort_rows le l).
Proof.
  induction l as [| x l IH]; simpl; [exact I |].
  now apply insert_row_ascending.
Qed.

(** The first row of the sorted list comes before every row. *)
Lemma sort_rows_head (l : list row) (h : row) (t : list row) :
  sort_rows le l = h :: t ->
  In h l /\ forall y, In y l -> le h y = true.
Proof.
  intros Hs.
  assert (Hin : forall y, In y l <-> In y (h :: t))
    by (intros y; rewrite <- Hs; symmetry; apply In_sort_rows).
  split; [apply Hin; simpl; auto |].
  intros y Hy. apply Hin in Hy as [<- | Hy].
  - destruct (le_total h h); assumption.
  - pose proof (sort_rows_ascending l) as Ha. rewrite Hs in Ha.
    now apply (proj1 Ha).
Qed.

Lemma sort_rows_nonempty (l : list row) :
  l <> [] -> sort_rows le l <> [].
Proof.
  intros Hl Hs. apply Hl. apply length_zero_iff_nil.
  rewrite <- (length_sort_rows le l), Hs. reflexivity.
Qed.

End Ordering.

(** ** get_last_row and get_first_row_after *)

Section LastRow.
Import Sql SqlAlchemy.

Lemma cell_skip (k c : string) (cols : list string) (v : pyval) (r : row) :
  k <> c -> cell (k :: cols) (v :: r) c = cell cols r c.
Proof. intros H; simpl. apply String.eqb_neq in H. now rewrite H. Qed.

(** Selecting every column of a well-formed row gives the row back. *)
Lemma project_self (cols : list string) (r : row) :
  NoDup cols -> List.length r = List.length cols ->
  project cols cols r = r.
Proof.
  unfold project. revert r; induction cols as [| k cols IH]; intros r Hnd Hl.
  - destruct r; [reflexivity | discriminate].
  - destruct r as [| v r]; [discriminate |].
    inversion Hnd as [| ? ? Hk Hnd']; subst.
    cbn [map]. f_equal.
    + simpl. now rewrite String.eqb_refl.
    + rewrite <- (IH r Hnd') at 2 by (simpl in Hl; lia).
      apply map_ext_in. intros c Hc. apply cell_skip.
      intros ->; contradiction.
Qed.

Lemma dict_zip_fold (ks : list string) (vs : list pyval) (acc : dict) :
  NoDup (keys acc ++ ks) ->
  fold_left (fun d kv => dict_setitem d (fst kv) (snd kv)) (combine ks vs) acc
  = acc ++ combine ks vs.
Proof.
  revert vs acc; induction ks as [| k ks IH]; intros vs acc Hnd; simpl.
  - now rewrite app_nil_r.
  - destruct vs as [| v vs]; simpl; [now rewrite app_nil_r |].
    apply NoDup_remove in Hnd as Hrem. destruct Hrem as [_ Hk].
    rewrite dict_setitem_fresh
      by (intros Hin; apply Hk, in_or_app; auto).
    rewrite IH.
    + now rewrite <- app_assoc.
    + unfold keys in *. rewrite map_app, <- app_assoc. exact Hnd.
Qed.

Lemma dict_zip_combine (ks : list string) (vs : list pyval) :
  NoDup ks -> dict_zip ks vs = combine ks vs.
Proof. intros Hnd. unfold dict_zip. now rewrite dict_zip_fold. Qed.

(** The rows of the table, greatest [id] first. *)
Lemma get_last_row_eval (db : database) (table_name col : string)
    (asc : bool) (tbl : Table) :
  reflect db table_name = Ok tbl -> has_column tbl "id" = true ->
  get_last_row db table_name col asc
  = match sort_rows (ordering_leb (t_columns tbl) (Desc "id")) (t_rows tbl)
    with
    | [] => Raise (TypeError "'NoneType' object is not iterable")
    | h :: _ =>
        Ok (dict_zip (t_columns tbl)
              (project (t_columns tbl) (t_columns tbl) h))
    end.
Proof.
  intros Ht Hid. unfold get_last_row, c_getattr.
  rewrite Ht; simpl. rewrite Hid; simpl.
  unfold execute, limited, ordered, filtered; simpl.
  change (Pos.to_nat 1) with 1%nat.
  destruct (sort_rows _ (t_rows tbl)); reflexivity.
Qed.

Lemma desc_id_total (cols : list string) (x y : row) :
  ordering_leb cols (Desc "id") x y = true \/
  ordering_leb cols (Desc "id") y x = true.
Proof. apply order_leb_total. Qed.

Lemma desc_id_trans (cols : list string) (x y z : row) :
  ordering_leb cols (Desc "id") x y = true ->
  ordering_leb cols (Desc "id") y z = true ->
  ordering_leb cols (Desc "id") x z = true.
Proof. simpl; intros H1 H2. eapply order_leb_trans; eassumption. Qed.

(** C9.  [get_first_row_after] and [get_last_row] give the same outcome
    on every table, whatever [col], [value] and [ascending] are.  When
    they return a dictionary, it is built from a stored row whose [id]
    no other row exceeds in the order of the engine (on integers, the
    usual order); it pairs the column names with the values of that row
    when the table is well formed.  They do return one when the table
    exists, has a column [id] and is not empty. *)
Theorem get_first_row_after_is_get_last_row (db : database)
    (table_name : string) :
  (forall col value col' ascending,
      get_first_row_after db table_name col value
      = get_last_row db table_name col' ascending) /\
  (forall col ascending d,
      get_last_row db table_name col ascending = Ok d ->
      exists tbl r,
        reflect db table_name = Ok tbl /\ In r (t_rows tbl) /\
        d = dict_zip (t_columns tbl)
              (project (t_columns tbl) (t_columns tbl) r) /\
        (NoDup (t_columns tbl) ->
         List.length r = List.length (t_columns tbl) ->
         d = combine (t_columns tbl) r) /\
        (forall r', In r' (t_rows tbl) ->
           order_leb (cell (t_columns tbl) r' "id")
                     (cell (t_columns tbl) r "id") = true) /\
        (forall r' z z', In r' (t_rows tbl) ->
           cell (t_columns tbl) r "id" = VInt z ->
           cell (t_columns tbl) r' "id" = VInt z' -> z' <= z)) /\
  (forall col ascending tbl,
      reflect db table_name = Ok tbl -> has_column tbl "id" = true ->
      t_rows tbl <> [] ->
      exists d, get_last_row db table_name col ascending = Ok d).
Proof.
  split; [reflexivity | split].
  - intros col ascending d Hd.
    pose proof Hd as Hd'. unfold get_last_row in Hd'.
    bind_inv Hd'. rename x into tbl. bind_inv Hd'.
    apply c_getattr_ok in Hx0 as [_ Hid]. clear Hd'.
    rewrite (get_last_row_eval db table_name col ascending tbl Hx Hid) in Hd.
    destruct (sort_rows _ (t_rows tbl)) as [| h t] eqn:Hs; [discriminate |].
    injection Hd as <-.
    apply (sort_rows_head _ (desc_id_total (t_columns tbl))
             (desc_id_trans (t_columns tbl))) in Hs as [Hin Hmax].
    exists tbl, h. split; [assumption |]. split; [assumption |].
    split; [reflexivity |]. split; [| split].
    + intros Hnd Hl. rewrite project_self by assumption.
      now apply dict_zip_combine.
    + intros r' Hr'. exact (Hmax r' Hr').
    + intros r' z z' Hr' Hz Hz'. specialize (Hmax r' Hr').
      simpl in Hmax. rewrite Hz, Hz' in Hmax. simpl in Hmax.
      now apply Z.leb_le.
  - intros col ascending tbl Ht Hid Hne.
    rewrite (get_last_row_eval db table_name col ascending tbl Ht Hid).
    pose proof (sort_rows_nonempty
                  (ordering_leb (t_columns tbl) (Desc "id")) _ Hne) as Hs.
    destruct (sort_rows _ (t_rows tbl)); [contradiction | eauto].
Qed.

Lemma get_first_row_after_is_get_last_row_witness :
  get_first_row_after Sample.db "fees" "x" (VInt 2)
  = get_last_row Sample.db "fees" "id" true
  /\ get_last_row Sample.db "fees" "id" true
     = Ok [("id", VInt 4); ("x", VInt 9); ("fee_price", VNone);
           ("fee_value", VNone)].
Proof.
  split; [| reflexivity].
  apply (proj1 (get_first_row_after_is_get_last_row Sample.db "fees")).
Defined.

End LastRow.

(** ** batch_update_table *)

Section BatchUpdate.
Import Sql SqlAlchemy.

(** [tab] is defined in helpers.py and is not imported by
    sqlalchemy.py. *)
Lemma tab_unbound : lookup_name module_globals "tab" = Raise (NameError "tab").
Proof. reflexivity. Qed.

Lemma range0_nonempty (stop step : Z) :
  0 < stop -> 0 < step ->
  exists rest, range0 stop step = Ok (0 :: rest).
Proof.
  intros Hstop Hstep. unfold range0.
  destruct (Z.eqb_spec step 0); [lia |].
  destruct (Z.ltb_spec step 0); [lia |].
  assert (Hn : (0 < Z.to_nat ((stop + step - 1) / step))%nat).
  { apply Nat2Z.inj_lt. rewrite Z2Nat.id.
    - apply Z.div_str_pos. lia.
    - apply Z.div_pos; lia. }
  destruct (Z.to_nat ((stop + step - 1) / step)) as [| m]; [lia |].
  simpl. eauto.
Qed.

(** C8, as the code has it.  The method is written to run the rows in
    batches and to commit after each batch, but in the module as it is
    a call on a table of the schema, with at least one row to update
    and a positive batch size, stops at line 298 of the first batch:
    [tab] is not a name of the module, [NameError] is raised before any
    [UPDATE] is executed, and the tables are left as they were. *)
Theorem batch_update_table_stops (db : database) (table_name : string)
    (arr_rows : list dict) (col_merge : string) (batch_size : Z)
    (tbl : Table) :
  reflect db table_name = Ok tbl -> arr_rows <> [] -> 0 < batch_size ->
  batch_update_table db table_name arr_rows col_merge batch_size
  = (Raise (NameError "tab"), db).
Proof.
  intros Ht Hne Hbs.
  unfold batch_update_table, batch_update_table_in. rewrite Ht; simpl.
  destruct (Z.eqb_spec batch_size 0); [lia |]. simpl.
  destruct (range0_nonempty (Z.of_nat (List.length arr_rows)) batch_size)
    as [rest ->]; [destruct arr_rows; [contradiction | simpl; lia] | lia |].
  cbn [bind for_in_conn]. unfold batch. rewrite tab_unbound. reflexivity.
Qed.

(** [batch_update_table("fees", [row], "id", 1000)] on the sample
    table. *)
Lemma batch_update_table_stops_witness :
  batch_update_table Sample.db "fees"
    [[("id", VInt 1); ("fee_price", VInt 10); ("fee_value", VInt 20)]]
    "id" 1000
  = (Raise (NameError "tab"), Sample.db).
Proof.
  apply (batch_update_table_stops Sample.db "fees"
           [[("id", VInt 1); ("fee_price", VInt 10); ("fee_value", VInt 20)]]
           "id" 1000 Sample.fees).
  - reflexivity.
  - discriminate.
  - lia.
Defined.

(** *** The loop in a module where [tab] is bound *)

Lemma apply_rows_app (tbl : Table) (col_merge : string)
    (rows1 rows2 : list dict) (db : database) :
  apply_rows tbl col_merge (rows1 ++ rows2) db
  = (db' <- apply_rows tbl col_merge rows1 db ;;
     apply_rows tbl col_merge rows2 db').
Proof. unfold apply_rows. apply for_in_app. Qed.

(** The row loop changes the open transaction only. *)
Lemma update_rows_conn (tbl : Table) (col_merge : string)
    (rows : list dict) (conn : connection) :
  match for_in_conn rows (update_row tbl col_merge) conn with
  | (Ok _, conn') =>
      committed conn' = committed conn /\
      apply_rows tbl col_merge rows (pending conn) = Ok (pending conn')
  | (Raise _, conn') => committed conn' = committed conn
  end.
Proof.
  revert conn; induction rows as [| row rows IH]; intros conn; simpl.
  - auto.
  - unfold update_row at 1, apply_rows; simpl.
    destruct (update_stmt tbl row col_merge) as [stmt | e]; simpl;
      [| reflexivity].
    destruct (execute_update (pending conn) stmt) as [db' | e]; simpl;
      [| reflexivity].
    specialize (IH (mkConn (committed conn) db')).
    destruct (for_in_conn rows (update_row tbl col_merge)
                (mkConn (committed conn) db')) as [[u | e] conn'];
      simpl in *; exact IH.
Qed.

Lemma firstn_add {A} (n m : nat) (l : list A) :
  firstn (n + m) l = firstn n l ++ firstn m (skipn n l).
Proof.
  revert l; induction n as [| n IH]; intros l; simpl; [reflexivity |].
  destruct l as [| x l]; simpl.
  - now rewrite firstn_nil.
  - now rewrite IH.
Qed.

(** The slice of a batch is the next [batch_size] rows. *)
Lemma slice_batch {A} (arr_rows : list A) (batch_size : Z) (i : nat) :
  0 < batch_size ->
  let offset := Z.of_nat i * batch_size in
  slice arr_rows offset
    (offset + Z.min batch_size (Z.of_nat (List.length arr_rows) - offset))
  = firstn (Z.to_nat batch_size) (skipn (i * Z.to_nat batch_size) arr_rows).
Proof.
  intros Hbs offset. unfold slice.
  replace (Z.to_nat offset) with (i * Z.to_nat batch_size)%nat
    by (subst offset; rewrite Z2Nat.inj_mul, Nat2Z.id by lia; reflexivity).
  replace (offset + Z.min batch_size
                      (Z.of_nat (List.length arr_rows) - offset) - offset)
    with (Z.min batch_size (Z.of_nat (List.length arr_rows) - offset))
    by lia.
  destruct (Z.le_ge_cases batch_size
              (Z.of_nat (List.length arr_rows) - offset)) as [Hle | Hge].
  - now rewrite Z.min_l by exact Hle.
  - rewrite Z.min_r by exact Hge.
    assert (Hlen : Z.of_nat (List.length
                      (skipn (i * Z.to_nat batch_size) arr_rows))
                   = Z.max 0 (Z.of_nat (List.length arr_rows) - offset)).
    { rewrite length_skipn. subst offset. lia. }
    rewrite !firstn_all2; [reflexivity | lia | lia].
Qed.

(** One batch, started with nothing pending: either it commits the
    updates of its rows, or it leaves the committed tables as they
    were. *)
Lemma batch_conn (globals : list string) (tbl : Table)
    (arr_rows : list dict) (col_merge : string) (batch_size : Z)
    (i : nat) (db : database) :
  0 < batch_size ->
  match batch globals tbl arr_rows col_merge batch_size
          (Z.of_nat i * batch_size) (mkConn db db) with
  | (Ok _, conn') =>
      committed conn' = pending conn' /\
      apply_rows tbl col_merge
        (firstn (Z.to_nat batch_size)
           (skipn (i * Z.to_nat batch_size) arr_rows)) db
      = Ok (committed conn')
  | (Raise _, conn') => committed conn' = db
  end.
Proof.
  intros Hbs. unfold batch.
  rewrite (slice_batch arr_rows batch_size i Hbs).
  destruct (_ <- lookup_name globals "tab" ;; _)%py; [| reflexivity].
  pose proof (update_rows_conn tbl col_merge
                (firstn (Z.to_nat batch_size)
                   (skipn (i * Z.to_nat batch_size) arr_rows))
                (mkConn db db)) as H.
  destruct (for_in_conn _ (update_row tbl col_merge) (mkConn db db))
    as [[u | e] conn']; simpl in *; [| exact H].
  destruct H as [_ H]. split; [reflexivity | exact H].
Qed.

Lemma batches_conn (globals : list string) (tbl : Table)
    (arr_rows : list dict) (col_merge : string) (batch_size : Z)
    (m i : nat) (db0 db : database) :
  0 < batch_size ->
  apply_rows tbl col_merge (firstn (i * Z.to_nat batch_size) arr_rows) db0
  = Ok db ->
  exists k,
    (i <= k <= i + m)%nat /\
    apply_rows tbl col_merge (firstn (k * Z.to_nat batch_size) arr_rows) db0
    = Ok (committed
            (snd (for_in_conn
                    (map (fun j => Z.of_nat j * batch_size) (seq i m))
                    (batch globals tbl arr_rows col_merge batch_size)
                    (mkConn db db)))) /\
    (is_ok (fst (for_in_conn
                   (map (fun j => Z.of_nat j * batch_size) (seq i m))
                   (batch globals tbl arr_rows col_merge batch_size)
                   (mkConn db db))) = true ->
     k = (i + m)%nat /\
     pending (snd (for_in_conn
                     (map (fun j => Z.of_nat j * batch_size) (seq i m))
                     (batch globals tbl arr_rows col_merge batch_size)
                     (mkConn db db)))
     = committed (snd (for_in_conn
                         (map (fun j => Z.of_nat j * batch_size) (seq i m))
                         (batch globals tbl arr_rows col_merge batch_size)
                         (mkConn db db)))).
Proof.
  intros Hbs. revert i db. induction m as [| m IH]; intros i db Hdb; simpl.
  - exists i. split; [lia |]. split; [exact Hdb |].
    intros _. split; [lia | reflexivity].
  - pose proof (batch_conn globals tbl arr_rows col_merge batch_size i db Hbs)
      as Hb.
    destruct (batch globals tbl arr_rows col_merge batch_size
                (Z.of_nat i * batch_size) (mkConn db db))
      as [[u | e] conn'].
    + destruct Hb as [Hcp Hrows]. destruct conn' as [c p]; simpl in *.
      subst p.
      assert (Hnext : apply_rows tbl col_merge
                        (firstn (S i * Z.to_nat batch_size) arr_rows) db0
                      = Ok c).
      { replace (S i * Z.to_nat batch_size)%nat
          with (i * Z.to_nat batch_size + Z.to_nat batch_size)%nat by lia.
        rewrite firstn_add, apply_rows_app, Hdb. exact Hrows. }
      destruct (IH (S i) c Hnext) as (k & Hk & Hc & Hok).
      exists k. split; [lia |]. split; [exact Hc |].
      intros H. destruct (Hok H) as [-> Hp]. split; [lia | exact Hp].
    + simpl in *. exists i. split; [lia |]. split; [now rewrite Hb |].
      discriminate.
Qed.

(** Whatever names the module binds: the tables left committed by a
    call are those obtained by running the updates of the first [k]
    batches, for some [k]; no later row has any effect, and when the
    call returns normally every row has been run. *)
Lemma batch_update_progress (globals : list string) (db : database)
    (table_name : string) (arr_rows : list dict) (col_merge : string)
    (batch_size : Z) (tbl : Table) :
  reflect db table_name = Ok tbl -> 0 < batch_size ->
  exists k,
    apply_rows tbl col_merge (firstn (k * Z.to_nat batch_size) arr_rows) db
    = Ok (snd (batch_update_table_in globals db table_name arr_rows
                 col_merge batch_size)) /\
    (is_ok (fst (batch_update_table_in globals db table_name arr_rows
                   col_merge batch_size)) = true ->
     (List.length arr_rows <= k * Z.to_nat batch_size)%nat).
Proof.
  intros Ht Hbs. unfold batch_update_table_in. rewrite Ht; simpl.
  destruct (Z.eqb_spec batch_size 0); [lia |]. simpl.
  unfold range0. destruct (Z.eqb_spec batch_size 0); [lia |].
  destruct (Z.ltb_spec batch_size 0); [lia |]. simpl.
  set (m := Z.to_nat ((Z.of_nat (List.length arr_rows) + batch_size - 1)
                      / batch_size)).
  destruct (batches_conn globals tbl arr_rows col_merge batch_size m 0 db db
              Hbs) as (k & Hk & Hc & Hok); [reflexivity |].
  unfold begin.
  destruct (for_in_conn _ _ (mkConn db db)) as [[u | e] conn'];
    simpl in *.
  - destruct (Hok eq_refl) as [-> Hp]. exists m.
    rewrite Hp. split; [exact Hc |]. intros _.
    subst m.
    assert (Hdiv : Z.of_nat (List.length arr_rows)
                   <= ((Z.of_nat (List.length arr_rows) + batch_size - 1)
                       / batch_size) * batch_size).
    { pose proof (Z.div_mod
                    (Z.of_nat (List.length arr_rows) + batch_size - 1)
                    batch_size) as Hdm.
      pose proof (Z.mod_pos_bound
                    (Z.of_nat (List.length arr_rows) + batch_size - 1)
                    batch_size Hbs).
      nia. }
    apply Nat2Z.inj_le. rewrite Nat2Z.inj_mul, !Z2Nat.id; [exact Hdiv | lia |].
    apply Z.div_pos; lia.
  - exists k. split; [exact Hc | discriminate].
Qed.

(** With [tab] bound, a failure in the second batch leaves the first
    batch committed and the third row untouched. *)
Lemma batch_update_with_tab_example :
  batch_update_table_in ("tab" :: module_globals) Sample.db "fees"
    Sample.updates "id" 2
  = (Raise (KeyError "fee_value"),
     [mkTable "fees" ["id"; "x"; "fee_price"; "fee_value"]
        [[VInt 1; VInt (-3); VInt 10; VInt 20];
         [VInt 3; VInt 0; VInt 7; VNone];
         [VInt 2; VInt 5; VInt 11; VInt 21];
         [VInt 4; VInt 9; VNone; VNone]]]).
Proof. reflexivity. Qed.

End BatchUpdate.

(* ================================================================= *)
(** * Further properties of the code *)

(** ** helpers.py: the jsonify helpers *)

Section JsonifyMore.
Import Helpers.

Lemma jsonify_value_representable (v v' : pyval) :
  jsonify_value v = Ok v' -> json_representable v' = true.
Proof.
  unfold jsonify_value. destruct (json_representable v) eqn:Hr.
  - now intros [= <-].
  - intros H. bind_inv H. now injection H as <-.
Qed.

Lemma jsonify_value_kept (v : pyval) :
  json_representable v = true -> jsonify_value v = Ok v.
Proof. unfold jsonify_value. now intros ->. Qed.

(** The fields of a dictionary that [jsonify_dict] returned. *)
Lemma jsonify_fields_representable (d d' : dict) :
  map_m jsonify_field d = Ok d' ->
  forall kv, In kv d' -> json_representable (snd kv) = true.
Proof.
  revert d'; induction d as [| [k v] d IH]; simpl; intros d' H kv Hin.
  - injection H as <-. destruct Hin.
  - bind_inv H. bind_inv H. injection H as <-.
    unfold jsonify_field in Hx. bind_inv Hx. injection Hx as <-.
    destruct Hin as [<- | Hin]; [| now apply (IH x0)].
    simpl. eapply jsonify_value_representable; eassumption.
Qed.

(** When [jsonify_dict] returns, the dictionary has the keys of its
    argument, in the same order, and [json.dumps] accepts every one of
    its values. *)
Theorem jsonify_dict_serializable (d_in d_out : dict) :
  NoDup (keys d_in) ->
  jsonify_dict d_in = Ok d_out ->
  keys d_out = keys d_in /\
  forall k v, In (k, v) d_out -> json_dumps v = Ok tt.
Proof.
  intros Hd H. rewrite jsonify_dict_fields in H by exact Hd.
  split; [now apply map_m_keys |].
  intros k v Hin.
  pose proof (jsonify_fields_representable d_in d_out H (k, v) Hin) as Hr.
  unfold json_representable in Hr. simpl in Hr.
  destruct (json_dumps v) as [[] | e]; [reflexivity | discriminate].
Qed.

Lemma jsonify_dict_serializable_witness :
  keys [("when", VStr "2024-01-01 00:00:00"); ("price", VStr "0")]
  = keys Sample.priced /\
  forall k v,
    In (k, v) [("when", VStr "2024-01-01 00:00:00"); ("price", VStr "0")] ->
    json_dumps v = Ok tt.
Proof.
  apply (jsonify_dict_serializable Sample.priced).
  - repeat constructor; simpl; intuition discriminate.
  - reflexivity.
Defined.

(** Running [jsonify_dict] on its own result changes nothing. *)
Theorem jsonify_dict_idempotent (d_in d_out : dict) :
  NoDup (keys d_in) ->
  jsonify_dict d_in = Ok d_out ->
  jsonify_dict d_out = Ok d_out.
Proof.
  intros Hd H. rewrite jsonify_dict_fields in H by exact Hd.
  rewrite jsonify_dict_fields
    by (now rewrite (map_m_keys d_in d_out H)).
  apply map_m_fixed. intros [k v] Hin.
  unfold jsonify_field. simpl.
  rewrite jsonify_value_kept; [reflexivity |].
  exact (jsonify_fields_representable d_in d_out H (k, v) Hin).
Qed.

Lemma jsonify_dict_idempotent_witness :
  jsonify_dict [("id", VInt 1); ("blob", VStr "<memory at 0x7f>");
                ("name", VStr "a")]
  = Ok [("id", VInt 1); ("blob", VStr "<memory at 0x7f>");
        ("name", VStr "a")].
Proof.
  apply (jsonify_dict_idempotent Sample.record).
  - repeat constructor; simpl; intuition discriminate.
  - reflexivity.
Defined.

(** [jsonify_records] does to a list what [jsonify_dict] does to each
    of its dictionaries in turn, the first failure being the failure of
    the whole; when it returns, it returns as many dictionaries as it
    got. *)
Theorem jsonify_records_each (records_arr : list dict) :
  Forall (fun d => NoDup (keys d)) records_arr ->
  jsonify_records records_arr = map_m jsonify_dict records_arr /\
  forall out, jsonify_records records_arr = Ok out ->
              List.length out = List.length records_arr.
Proof.
  intros Hrs. rewrite jsonify_records_fields by exact Hrs. split.
  - apply map_m_ext_in. intros d Hd. symmetry.
    apply jsonify_dict_fields.
    rewrite Forall_forall in Hrs. now apply Hrs.
  - intros out. apply map_m_length.
Qed.

Lemma jsonify_records_each_witness :
  jsonify_records [Sample.record; []; Sample.priced]
  = map_m jsonify_dict [Sample.record; []; Sample.priced].
Proof.
  apply (jsonify_records_each [Sample.record; []; Sample.priced]).
  repeat constructor; simpl; intuition discriminate.
Defined.

End JsonifyMore.

(** ** helpers.py: tab *)

Section Tab.
Import Helpers.

Lemma string_app_assoc (s t u : string) :
  ((s ++ t) ++ u = s ++ t ++ u)%string.
Proof. induction s as [| c s IH]; simpl; [reflexivity | now rewrite IH]. Qed.

Lemma split_lines_nonempty (s : string) : split_lines s <> [].
Proof.
  induction s as [| c s IH]; simpl; [discriminate |].
  destruct (Ascii.eqb c newline); [discriminate |].
  destruct (split_lines s); discriminate.
Qed.

Lemma join_lines_prefix (p l : string) (rest : list string) :
  join_lines ((p ++ l)%string :: rest) = (p ++ join_lines (l :: rest))%string.
Proof.
  unfold join_lines. destruct rest as [| x rest]; simpl; [reflexivity |].
  now rewrite string_app_assoc.
Qed.

Lemma join_lines_cons (x y : string) (rest : list string) :
  join_lines (x :: y :: rest)
  = (x ++ String newline "" ++ join_lines (y :: rest))%string.
Proof. reflexivity. Qed.

(** Replacing every newline by a newline and the padding pads every
    line but the first. *)
Lemma replace_char_lines (pad s : string) :
  replace_char newline (String newline pad) s
  = match split_lines s with
    | l :: ls => join_lines (l :: map (String.append pad) ls)
    | [] => EmptyString
    end.
Proof.
  induction s as [| c s IH]; simpl; [reflexivity |].
  pose proof (split_lines_nonempty s) as Hne.
  destruct (split_lines s) as [| l ls]; [contradiction |].
  destruct (Ascii.eqb c newline).
  - rewrite IH. cbn [map].
    rewrite join_lines_cons, join_lines_prefix. reflexivity.
  - rewrite IH.
    change (String c l) with (String c "" ++ l)%string.
    rewrite join_lines_prefix. reflexivity.
Qed.

(** On a text and without a colour, [tab] returns the lines of the
    text, each one after [indent] spaces, joined by newlines again and
    followed by the reset code. *)
Theorem tab_indents_every_line (s : string) (indent : Z) :
  tab (VStr s) indent None
  = Ok (join_lines
          (map (String.append (spaces (Z.to_nat indent))) (split_lines s))
        ++ String escape "[0m")%string.
Proof.
  unfold tab. cbn [bind]. do 2 f_equal.
  rewrite replace_char_lines.
  pose proof (split_lines_nonempty s) as Hne.
  destruct (split_lines s) as [| l ls]; [contradiction |].
  cbn [map]. now rewrite join_lines_prefix.
Qed.




End Tab.

(** ** constants.py *)

Section ConstantsProperties.
Import Constants.

Lemma environ_get_other (env : environ) (k key v default : string) :
  k <> key ->
  environ_get ((k, v) :: env) key default = environ_get env key default.
Proof. intros H; simpl. apply String.eqb_neq in H. now rewrite H. Qed.

(** The host of [_DB_URL] is read from the variable [_DATABASE_HOST],
    with the underscore: giving [DATABASE_HOST] a value changes
    nothing, while giving [_DATABASE_HOST] one sets the host.  The user
    and the password are read from [DATABASE_UID] and [DATABASE_PWD]. *)
Theorem db_url_host_variable (env : environ) (v : string) :
  _DB_URL (("DATABASE_HOST", v) :: env) = _DB_URL env /\
  _DB_URL (("_DATABASE_HOST", v) :: env)
  = get_db_url (_DATABASE_UID env) (_DATABASE_PWD env) v
      "5432" "postgresql" "sports_data".
Proof.
  split; unfold _DB_URL, _DATABASE_UID, _DATABASE_PWD, _DATABASE_HOST;
    rewrite ?environ_get_other by discriminate; [reflexivity |].
  simpl environ_get at 3. reflexivity.
Qed.

(** [get_db_url] escapes nothing: a colon in the user name moves the
    boundary between user and password, so two different pairs of
    credentials give one and the same URL. *)
Theorem get_db_url_no_escaping
    (uid x pwd server port driver database : string) :
  get_db_url (uid ++ ":" ++ x)%string pwd server port driver database
  = get_db_url uid (x ++ ":" ++ pwd)%string server port driver database.
Proof.
  unfold get_db_url. rewrite !string_app_assoc. reflexivity.
Qed.

End ConstantsProperties.

(** ** read_table: the rows of the result *)

Section ReadTableRows.
Import Sql SqlAlchemy.

Lemma ordering_leb_total (cols : list string) (o : ordering) (x y : row) :
  ordering_leb cols o x y = true \/ ordering_leb cols o y x = true.
Proof. destruct o; apply order_leb_total. Qed.

Lemma ordering_leb_trans (cols : list string) (o : ordering) (x y z : row) :
  ordering_leb cols o x y = true -> ordering_leb cols o y z = true ->
  ordering_leb cols o x z = true.
Proof.
  destruct o; simpl; intros H1 H2; eapply order_leb_trans; eassumption.
Qed.

Lemma ascending_firstn (le : row -> row -> bool) (n : nat) (l : list row) :
  ascending le l -> ascending le (firstn n l).
Proof.
  revert l; induction n as [| n IH]; intros l; [intros _; exact I |].
  destruct l as [| x l]; simpl; [auto |].
  intros [Hx Hl]. split; [| now apply IH].
  intros y Hy. apply Hx. eapply In_firstn; eassumption.
Qed.

Lemma ascending_nth (le : row -> row -> bool) (l : list row) (i j : nat)
    (ri rj : row) :
  ascending le l -> (i < j)%nat ->
  nth_error l i = Some ri -> nth_error l j = Some rj -> le ri rj = true.
Proof.
  revert i j; induction l as [| x l IH]; intros i j Ha Hij Hi Hj.
  - destruct i; discriminate.
  - destruct Ha as [Hx Hl]. destruct j as [| j]; [lia |].
    destruct i as [| i]; simpl in *.
    + injection Hi as <-. apply Hx. eapply nth_error_In; eassumption.
    + apply (IH i j); [assumption | lia | assumption | assumption].
Qed.

(** The rows that a statement built by [compose] selects. *)
Lemma read_table_rows_eq (db : database) (table_name : string)
    (a : read_args) (df : DataFrame) :
  read_table db table_name a = Ok df ->
  exists tbl conditions,
    reflect db table_name = Ok tbl /\
    read_table_conditions tbl (projection tbl a) a = Ok conditions /\
    df_columns df = projection tbl a /\
    df_rows df
    = map (project (t_columns tbl) (projection tbl a))
        (let passing :=
           filter (fun r => forallb (fun cl => holds (t_columns tbl) cl r)
                              conditions)
             (t_rows tbl) in
         let sorted :=
           match requested_order a with
           | Some o => sort_rows (ordering_leb (t_columns tbl) o) passing
           | None => passing
           end in
         match limit a with
         | Some n => firstn (Z.to_nat n) sorted
         | None => sorted
         end).
Proof.
  unfold read_table; intros H. bind_inv H. rename x into q.
  unfold read_sql in H. bind_inv H. inversion H; subst; clear H; simpl.
  unfold read_table_query in Hx.
  bind_inv Hx. rename x0 into tbl. bind_inv Hx.
  apply map_m_getattr_ok in Hx2 as [-> Hcols].
  bind_inv Hx. rename x0 into conditions.
  apply compose_ok in Hx as (Hf & Hc & Hw & Ho & Hl); simpl in *.
  exists tbl, conditions. repeat (split; [assumption |]).
  unfold execute in Hx0. bind_inv Hx0. injection Hx0 as <-.
  rewrite Hf, Hc. f_equal.
  unfold limited in Hx. rewrite Hl in Hx.
  assert (Hord : ordered q
                 = match requested_order a with
                   | Some o =>
                       sort_rows (ordering_leb (t_columns tbl) o)
                         (filter
                            (fun r => forallb
                                        (fun cl => holds (t_columns tbl) cl r)
                                        conditions)
                            (t_rows tbl))
                   | None =>
                       filter
                         (fun r => forallb
                                     (fun cl => holds (t_columns tbl) cl r)
                                     conditions)
                         (t_rows tbl)
                   end).
  { unfold ordered. rewrite (filtered_conditions q conditions Hw), Ho, Hf.
    unfold requested_order. destruct (order_by_col a); reflexivity. }
  rewrite Hord in Hx.
  destruct (limit a) as [n |].
  - destruct (n <? 0); [discriminate |]. now injection Hx as <-.
  - now injection Hx as <-.
Qed.

(** With [order_by_col], the rows of a frame come from stored rows in
    the order asked for.  Of two rows of the frame whose values in that
    column are integers, the earlier one has the smaller or equal
    integer when [order_by_asc] is true, the greater or equal one
    otherwise; and [NULL] comes after every other value in ascending
    order and before every other value in descending order, as in
    PostgreSQL.  This holds after the limit is applied as well. *)
Theorem read_table_sorted (db : database) (table_name : string)
    (a : read_args) (df : DataFrame) (tbl : Table) (col : string) :
  reflect db table_name = Ok tbl ->
  order_by_col a = Some col ->
  read_table db table_name a = Ok df ->
  exists rs,
    df_rows df = map (project (t_columns tbl) (df_columns df)) rs /\
    (forall r, In r rs -> In r (t_rows tbl)) /\
    forall i j ri rj,
      (i < j)%nat -> nth_error rs i = Some ri -> nth_error rs j = Some rj ->
      (forall zi zj,
          cell (t_columns tbl) ri col = VInt zi ->
          cell (t_columns tbl) rj col = VInt zj ->
          if order_by_asc a then zi <= zj else zj <= zi) /\
      (if order_by_asc a
       then cell (t_columns tbl) ri col = VNone ->
            cell (t_columns tbl) rj col = VNone
       else cell (t_columns tbl) rj col = VNone ->
            cell (t_columns tbl) ri col = VNone).
Proof.
  intros Ht Ho H. apply read_table_rows_eq in H
    as (tbl' & conditions & Ht' & Hc & Hcols & Hrows).
  rewrite Ht in Ht'. injection Ht' as <-.
  unfold requested_order in Hrows. rewrite Ho in Hrows.
  set (o := if order_by_asc a then Asc col else Desc col) in *.
  set (passing := filter _ (t_rows tbl)) in *.
  cbv zeta in Hrows.
  assert (Hsorted : ascending (ordering_leb (t_columns tbl) o)
                      (sort_rows (ordering_leb (t_columns tbl) o) passing))
    by (apply sort_rows_ascending;
        [apply ordering_leb_total | apply ordering_leb_trans]).
  assert (Hin : forall r,
             In r (sort_rows (ordering_leb (t_columns tbl) o) passing) ->
             In r (t_rows tbl)).
  { intros r Hr. apply In_sort_rows in Hr. subst passing.
    now apply filter_In in Hr as [Hr _]. }
  exists (match limit a with
          | Some n =>
              firstn (Z.to_nat n)
                (sort_rows (ordering_leb (t_columns tbl) o) passing)
          | None => sort_rows (ordering_leb (t_columns tbl) o) passing
          end).
  rewrite Hcols. split; [exact Hrows |].
  assert (Hasc : ascending (ordering_leb (t_columns tbl) o)
                   (match limit a with
                    | Some n =>
                        firstn (Z.to_nat n)
                          (sort_rows (ordering_leb (t_columns tbl) o) passing)
                    | None =>
                        sort_rows (ordering_leb (t_columns tbl) o) passing
                    end))
    by (destruct (limit a); [now apply ascending_firstn | exact Hsorted]).
  split.
  - intros r Hr. apply Hin. destruct (limit a); [| exact Hr].
    eapply In_firstn; eassumption.
  - intros i j ri rj Hij Hi Hj.
    pose proof (ascending_nth _ _ i j ri rj Hasc Hij Hi Hj) as Hle.
    subst o. destruct (order_by_asc a); simpl in Hle; split.
    + intros zi zj Hzi Hzj. rewrite Hzi, Hzj in Hle. now apply Z.leb_le.
    + intros Hn. rewrite Hn in Hle.
      destruct (cell (t_columns tbl) rj col); [reflexivity | discriminate ..].
    + intros zi zj Hzi Hzj. rewrite Hzi, Hzj in Hle. now apply Z.leb_le.
    + intros Hn. rewrite Hn in Hle.
      destruct (cell (t_columns tbl) ri col); [reflexivity | discriminate ..].
Qed.

Lemma read_table_sorted_witness :
  exists rs,
    [[VNone; VInt 1]; [VInt 7; VInt 3]]
    = map (project (t_columns Sample.fees) ["fee_price"; "id"]) rs /\
    (forall r, In r rs -> In r (t_rows Sample.fees)) /\
    forall i j ri rj,
      (i < j)%nat -> nth_error rs i = Some ri -> nth_error rs j = Some rj ->
      (forall zi zj,
          cell (t_columns Sample.fees) ri "fee_price" = VInt zi ->
          cell (t_columns Sample.fees) rj "fee_price" = VInt zj ->
          zj <= zi) /\
      (cell (t_columns Sample.fees) rj "fee_price" = VNone ->
       cell (t_columns Sample.fees) ri "fee_price" = VNone).
Proof.
  apply (read_table_sorted Sample.db "fees"
           (set_order_by (Some "fee_price") false
              (set_col_in_arr (Some ("id", [VInt 1; VInt 3]))
                 (set_columns (Some ["fee_price"; "id"]) default_args)))
           (mkDataFrame ["fee_price"; "id"]
              [[VNone; VInt 1]; [VInt 7; VInt 3]])
           Sample.fees "fee_price"); reflexivity.
Defined.

End ReadTableRows.

(** ** read_table: the equals and membership directives *)

Section MoreDirectives.
Import Sql SqlAlchemy.



Lemma in_condition_listed (tbl : Table) (a : read_args)
    (columns : list string) (col : string) (arr : list pyval)
    (conditions : list clause) :
  col_in_arr a = Some (col, arr) ->
  read_table_conditions tbl columns a = Ok conditions ->
  has_column tbl col = true /\ In (In_ col arr) conditions.
Proof.
  intros Ha H. rewrite read_table_conditions_concat in H.
  do 5 bind_inv H. destruct x3 as [ce loc]. do 2 bind_inv H.
  inversion H; subst; clear H.
  unfold in_arr_block in Hx5. rewrite Ha in Hx5. bind_inv Hx5.
  apply c_getitem_ok in Hx6 as [-> Hcol]. injection Hx5 as <-.
  split; [exact Hcol |].
  repeat (apply in_or_app; right). simpl; auto.
Qed.

Lemma equals_condition_listed (tbl : Table) (a : read_args)
    (columns : list string) (col : string) (conditions : list clause) :
  equals_col a = Some col -> equals_val a <> VNone ->
  read_table_conditions tbl columns a = Ok conditions ->
  has_column tbl col = true /\
  In (Compare col OpEq (equals_val a)) conditions.
Proof.
  intros Hc Hv H. rewrite read_table_conditions_concat in H.
  do 5 bind_inv H. destruct x3 as [ce loc]. do 2 bind_inv H.
  inversion H; subst; clear H.
  unfold equals_block in Hx3. rewrite Hc in Hx3.
  destruct (equals_val a) as [| b | z | s | s | o] eqn:Hval;
    try contradiction; simpl in Hx3; bind_inv Hx3;
    apply c_getitem_ok in Hx6 as [-> Hcol]; injection Hx3 as <- <-;
    (split; [exact Hcol |]);
    do 4 (apply in_or_app; right); apply in_or_app; left; simpl; auto.
Qed.









(** A column that does not exist makes the whole read fail when it is
    named by the ordering, by an applied equals directive, by the
    membership directive, by a key of the equals-map or by an applied
    between directive: no frame is returned.  Only the after-cursor
    directive is dropped instead. *)
Theorem missing_column_fails (db : database) (table_name : string)
    (a : read_args) (tbl : Table) (col : string) :
  reflect db table_name = Ok tbl ->
  has_column tbl col = false ->
  order_by_col a = Some col \/
  (equals_col a = Some col /\ equals_val a <> VNone) \/
  (exists arr, col_in_arr a = Some (col, arr)) \/
  (exists dct, equals_dct a = Some dct /\ In col (keys dct)) \/
  (exists start_date end_date,
      between_col a = Some col /\ col <> "" /\
      between_arr a = Some [start_date; end_date] /\
      truthy start_date || truthy end_date = true) ->
  forall df, read_table db table_name a <> Ok df.
Proof.
  intros Ht Hmiss Hcases df Hdf.
  assert (Hparts : exists conditions q,
             read_table_conditions tbl (projection tbl a) a = Ok conditions /\
             compose tbl a (select tbl (projection tbl a)) conditions = Ok q).
  { unfold read_table, read_table_query in Hdf. rewrite Ht in Hdf.
    simpl in Hdf. bind_inv Hdf. bind_inv Hx.
    apply map_m_getattr_ok in Hx0 as [-> _]. bind_inv Hx. eauto. }
  destruct Hparts as (conditions & q & Hcs & Hq).
  destruct Hcases as [Ho | [[He Hv] | [[arr Hi] | [[dct [Hd Hk]] | Hb]]]].
  - unfold compose in Hq. rewrite Ho in Hq. bind_inv Hq. bind_inv Hx.
    apply c_getitem_ok in Hx0 as [_ Hc]. congruence.
  - destruct (equals_condition_listed tbl a _ col conditions He Hv Hcs)
      as [Hc _]. congruence.
  - destruct (in_condition_listed tbl a _ col arr conditions Hi Hcs)
      as [Hc _]. congruence.
  - rewrite read_table_conditions_concat in Hcs.
    do 5 bind_inv Hcs. destruct x3 as [ce loc]. bind_inv Hcs.
    unfold equals_dct_block in Hx4. rewrite Hd in Hx4. bind_inv Hx4.
    apply equals_dct_loop_columns in Hx5.
    rewrite forallb_forall in Hx5. specialize (Hx5 col Hk). congruence.
  - destruct Hb as (s & e & Hc & Hne & Ha & Htruth).
    rewrite read_table_conditions_concat in Hcs.
    rewrite (between_block_yield tbl a col s e Hc Hne Ha) in Hcs.
    rewrite (c_getitem_missing tbl col Hmiss) in Hcs.
    destruct (truthy s), (truthy e); simpl in *; discriminate.
Qed.

Lemma missing_column_fails_witness :
  read_table Sample.db "fees" (set_order_by (Some "idd") true default_args)
  <> Ok (mkDataFrame ["id"; "x"; "fee_price"; "fee_value"] []).
Proof.
  apply (missing_column_fails Sample.db "fees"
           (set_order_by (Some "idd") true default_args) Sample.fees "idd"
           eq_refl eq_refl).
  left. reflexivity.
Defined.

End MoreDirectives.

(** ** Tables of the database *)

Section Tables.
Import Sql.

Lemma reflect_name (db : database) (table_name : string) (tbl : Table) :
  reflect db table_name = Ok tbl -> t_name tbl = table_name.
Proof.
  induction db as [| t db IH]; simpl; [discriminate |].
  destruct (String.eqb_spec (t_name t) table_name) as [Heq | _].
  - now intros [= <-].
  - exact IH.
Qed.

Lemma reflect_replace_same (db : database) (tbl tbl' : Table) :
  reflect db (t_name tbl') = Ok tbl ->
  reflect (replace_table db tbl') (t_name tbl') = Ok tbl'.
Proof.
  induction db as [| t db IH]; simpl; [discriminate |].
  destruct (String.eqb_spec (t_name t) (t_name tbl')) as [Heq | Hne]; simpl.
  - now rewrite String.eqb_refl.
  - apply String.eqb_neq in Hne. now rewrite Hne.
Qed.

Lemma reflect_replace_other (db : database) (tbl' : Table)
    (table_name : string) :
  table_name <> t_name tbl' ->
  reflect (replace_table db tbl') table_name = reflect db table_name.
Proof.
  intros Hne. induction db as [| t db IH]; simpl; [reflexivity |].
  destruct (String.eqb_spec (t_name t) (t_name tbl')) as [Heq | Hne']; simpl.
  - rewrite Heq.
    destruct (String.eqb_spec (t_name tbl') table_name); congruence.
  - destruct (String.eqb_spec (t_name t) table_name); [reflexivity | exact IH].
Qed.

End Tables.

(** ** batch_update_table: what it leaves *)

Section BatchUpdateMore.
Import Sql SqlAlchemy.

Lemma range0_negative (stop step : Z) :
  step < 0 -> range0 stop step = Ok [].
Proof.
  intros H. unfold range0.
  destruct (Z.eqb_spec step 0); [lia |].
  destruct (Z.ltb_spec step 0); [reflexivity | lia].
Qed.

Lemma range0_empty (step : Z) : 0 < step -> range0 0 step = Ok [].
Proof.
  intros H. unfold range0.
  destruct (Z.eqb_spec step 0); [lia |].
  destruct (Z.ltb_spec step 0); [lia |].
  rewrite Z.div_small by lia. reflexivity.
Qed.

(** Every call of [batch_update_table] leaves the tables as they were,
    and its outcome is this: on a table that the schema lacks, the
    error of the reflection; with [batch_size] 0, [ZeroDivisionError]
    from line 284; with a negative [batch_size], or with no row, a
    normal return, the range of line 288 being empty and the rows, if
    any, silently skipped; in every other case [NameError] at line 298,
    where [tab] is called. *)
Theorem batch_update_table_changes_nothing (db : database)
    (table_name : string) (arr_rows : list dict) (col_merge : string)
    (batch_size : Z) :
  batch_update_table db table_name arr_rows col_merge batch_size
  = (match reflect db table_name with
     | Raise e => Raise e
     | Ok _ =>
         if batch_size =? 0 then Raise ZeroDivisionError
         else if batch_size <? 0 then Ok tt
         else match arr_rows with
              | [] => Ok tt
              | _ :: _ => Raise (NameError "tab")
              end
     end, db) /\
  (forall e, reflect db table_name = Raise e ->
             e = NoSuchTableError table_name).
Proof.
  split.
  - unfold batch_update_table, batch_update_table_in.
    destruct (reflect db table_name) as [tbl | e] eqn:Ht; cbn [bind];
      [| reflexivity].
    destruct (Z.eqb_spec batch_size 0) as [-> | Hz]; cbn [bind];
      [reflexivity |].
    destruct (Z.ltb_spec batch_size 0) as [Hneg | Hpos].
    { rewrite range0_negative by exact Hneg. reflexivity. }
    assert (Hbs : 0 < batch_size) by lia.
    destruct arr_rows as [| row rows].
    { change (Z.of_nat (List.length (@nil dict))) with 0.
      rewrite range0_empty by exact Hbs. reflexivity. }
    destruct (range0_nonempty (Z.of_nat (List.length (row :: rows)))
                batch_size) as [rest ->];
      [cbn [List.length]; lia | exact Hbs |].
    cbn [bind for_in_conn]. unfold batch at 1. rewrite tab_unbound.
    reflexivity.
  - induction db as [| t db IH]; simpl; intros e.
    + now intros [= <-].
    + destruct (t_name t =? table_name)%string; [discriminate | apply IH].
Qed.

End BatchUpdateMore.

(** ** clear_table *)

Section RowsInAndOut.
Import Sql SqlAlchemy.

Lemma has_column_self (tbl : Table) :
  forallb (has_column tbl) (t_columns tbl) = true.
Proof.
  apply forallb_forall. intros c Hc. unfold has_column.
  apply existsb_exists. exists c. split; [exact Hc | apply String.eqb_refl].
Qed.

Lemma has_column_In (tbl : Table) (c : string) :
  has_column tbl c = true <-> In c (t_columns tbl).
Proof.
  unfold has_column. rewrite existsb_exists. split.
  - intros (x & Hx & Heq). apply String.eqb_eq in Heq. now subst.
  - intros Hc. exists c. split; [exact Hc | apply String.eqb_refl].
Qed.

(** After [clear_table] on a table of the schema, the table has its
    columns and no row, the other tables are as before, every
    [read_table] on it that returns a frame returns an empty one, and
    [get_last_row] on it raises the [TypeError] of a missing row.  On a
    table that is not in the schema it raises and changes nothing. *)
Theorem clear_table_empties (db : database) (table_name : string) :
  (forall tbl,
      reflect db table_name = Ok tbl ->
      exists db',
        clear_table db table_name = (Ok tt, db') /\
        reflect db' table_name
        = Ok (mkTable table_name (t_columns tbl) []) /\
        (forall other, other <> table_name ->
                       reflect db' other = reflect db other) /\
        (forall a df, read_table db' table_name a = Ok df ->
                      df_rows df = []) /\
        (forall col ascending,
            has_column tbl "id" = true ->
            get_last_row db' table_name col ascending
            = Raise (TypeError "'NoneType' object is not iterable"))) /\
  (forall e,
      reflect db table_name = Raise e ->
      clear_table db table_name = (Raise e, db)).
Proof.
  split.
  - intros tbl Ht. pose proof (reflect_name db table_name tbl Ht) as Hn.
    set (tbl' := mkTable table_name (t_columns tbl) []).
    exists (replace_table db tbl').
    assert (Hr : reflect (replace_table db tbl') table_name = Ok tbl').
    { apply (reflect_replace_same db tbl tbl'). exact Ht. }
    split.
    { unfold clear_table. rewrite Ht. cbn [bind begin pending].
      unfold execute_delete. rewrite Hn, Ht. cbn [bind]. rewrite Hn.
      reflexivity. }
    split; [exact Hr |]. split; [| split].
    + intros other Ho. now apply reflect_replace_other.
    + intros a df Hdf.
      apply read_table_ok in Hdf as (t0 & conds & Ht0 & _ & _ & _ & Hrows & _).
      rewrite Hr in Ht0. injection Ht0 as <-.
      destruct (df_rows df) as [| out rest]; [reflexivity |].
      destruct (Hrows out (or_introl eq_refl)) as (r & [] & _).
    + intros col ascending Hid.
      rewrite (get_last_row_eval _ table_name col ascending tbl' Hr Hid).
      reflexivity.
  - intros e He. unfold clear_table. rewrite He. reflexivity.
Qed.

End RowsInAndOut.

(** ** check_if_columns_in_table *)

Section CheckColumns.
Import Sql SqlAlchemy.

Lemma dict_getitem_setitem_same (d : dict) (key : string) (value : pyval) :
  dict_getitem (dict_setitem d key value) key = Ok value.
Proof.
  induction d as [| [k v] d IH]; simpl.
  - now rewrite String.eqb_refl.
  - destruct (String.eqb_spec k key) as [-> | Hne]; simpl.
    + now rewrite String.eqb_refl.
    + apply String.eqb_neq in Hne. now rewrite Hne.
Qed.

Lemma dict_getitem_setitem_other (d : dict) (key key' : string)
    (value : pyval) :
  key <> key' ->
  dict_getitem (dict_setitem d key value) key' = dict_getitem d key'.
Proof.
  intros Hne. induction d as [| [k v] d IH]; simpl.
  - apply String.eqb_neq in Hne. now rewrite Hne.
  - destruct (String.eqb_spec k key) as [-> | Hk]; simpl.
    + apply String.eqb_neq in Hne. now rewrite Hne.
    + destruct (String.eqb_spec k key'); [reflexivity | exact IH].
Qed.

Lemma keys_setitem_NoDup (d : dict) (key : string) (value : pyval) :
  NoDup (keys d) -> NoDup (keys (dict_setitem d key value)).
Proof.
  intros Hnd. destruct (in_dec string_dec key (keys d)) as [Hin | Hout].
  - assert (Hk : keys (dict_setitem d key value) = keys d); [| now rewrite Hk].
    clear Hnd. induction d as [| [k v] d IH]; simpl in *; [contradiction |].
    destruct (String.eqb_spec k key) as [-> | Hne]; simpl; [reflexivity |].
    f_equal. apply IH. destruct Hin; [contradiction | assumption].
  - rewrite dict_setitem_fresh by exact Hout.
    unfold keys in *. rewrite map_app. simpl.
    apply NoDup_app; [exact Hnd | repeat constructor; intros [] |].
    intros x Hx [<- | []]. contradiction.
Qed.

Lemma check_fold (f : string -> pyval) (names : list string) (d : dict)
    (n : string) :
  dict_getitem
    (fold_left (fun d' name => dict_setitem d' name (f name)) names d) n
  = if in_dec string_dec n names then Ok (f n) else dict_getitem d n.
Proof.
  revert d; induction names as [| x names IH]; intros d; simpl;
    [reflexivity |].
  rewrite IH.
  destruct (in_dec string_dec n names) as [Hin | Hout].
  - destruct (string_dec x n); reflexivity.
  - destruct (string_dec x n) as [-> | Hne].
    + apply dict_getitem_setitem_same.
    + now apply dict_getitem_setitem_other.
Qed.

Lemma check_fold_NoDup (f : string -> pyval) (names : list string)
    (d : dict) :
  NoDup (keys d) ->
  NoDup (keys (fold_left (fun d' name => dict_setitem d' name (f name))
                 names d)).
Proof.
  revert d; induction names as [| x names IH]; intros d Hd; simpl;
    [exact Hd |].
  apply IH. now apply keys_setitem_NoDup.
Qed.

(** The answers of [check_if_columns_in_table] for the names asked. *)
Lemma check_if_columns_asked (twoprime : database) (table_name : string)
    (column_names : list string) (tbl : Table) :
  reflect twoprime table_name = Ok tbl ->
  exists d_out,
    check_if_columns_in_table twoprime table_name column_names = Ok d_out /\
    forall name, In name column_names ->
                 dict_getitem d_out name = Ok (VBool (has_column tbl name)).
Proof.
  intros Ht. unfold check_if_columns_in_table. rewrite Ht. cbn [bind].
  eexists. split; [reflexivity |].
  intros name Hin.
  rewrite (check_fold
             (fun n => VBool (if has_column tbl n then true else false))).
  destruct (in_dec string_dec name column_names); [| contradiction].
  destruct (has_column tbl name); reflexivity.
Qed.

(** The dictionary of [check_if_columns_in_table] answers for every
    name that was asked, with [True] when the table of schema
    [twoprime] has the column and [False] when it has not, a name asked
    twice being stored once; a name that was not asked is a missing
    key. *)
Theorem check_if_columns_lookup (twoprime : database) (table_name : string)
    (column_names : list string) (tbl : Table) :
  reflect twoprime table_name = Ok tbl ->
  exists d_out,
    check_if_columns_in_table twoprime table_name column_names = Ok d_out /\
    (forall name, In name column_names ->
                  dict_getitem d_out name = Ok (VBool (has_column tbl name))) /\
    (forall name, ~ In name column_names ->
                  dict_getitem d_out name = Raise (KeyError name)) /\
    NoDup (keys d_out).
Proof.
  intros Ht. unfold check_if_columns_in_table. rewrite Ht. cbn [bind].
  eexists. split; [reflexivity |].
  split; [| split].
  - intros name Hin.
    rewrite (check_fold
               (fun n => VBool (if has_column tbl n then true else false))).
    destruct (in_dec string_dec name column_names); [| contradiction].
    destruct (has_column tbl name); reflexivity.
  - intros name Hout.
    rewrite (check_fold
               (fun n => VBool (if has_column tbl n then true else false))).
    destruct (in_dec string_dec name column_names); [contradiction |].
    reflexivity.
  - apply (check_fold_NoDup
             (fun n => VBool (if has_column tbl n then true else false))).
    constructor.
Qed.

Lemma check_if_columns_lookup_witness :
  exists d_out,
    check_if_columns_in_table Sample.db "fees" ["id"; "nope"; "id"] = Ok d_out
    /\
    (forall name, In name ["id"; "nope"; "id"] ->
                  dict_getitem d_out name
                  = Ok (VBool (has_column Sample.fees name))) /\
    (forall name, ~ In name ["id"; "nope"; "id"] ->
                  dict_getitem d_out name = Raise (KeyError name)) /\
    NoDup (keys d_out).
Proof.
  apply (check_if_columns_lookup Sample.db "fees" ["id"; "nope"; "id"]
           Sample.fees).
  reflexivity.
Defined.

End CheckColumns.

(** ** get_all_val_in_table_a_not_table_b *)

Section NotInOtherTable.
Import Sql SqlAlchemy.

Lemma sql_cmp_null_right (op : cmp_op) (x : pyval) : sql_cmp op x VNone = None.
Proof. destruct x; reflexivity. Qed.

Lemma sql_cmp_null_left (op : cmp_op) (x : pyval) : sql_cmp op VNone x = None.
Proof. reflexivity. Qed.

(** For two different tables of the schema and two of their columns:
    the call returns, in the order of the rows of table a, the values
    of its column for which no row of table b makes the comparison
    [b.column = a.column] true.  So an integer that is returned is in no
    row of table b; a [NULL] of table a is always returned, since a
    comparison with [NULL] is never true; and when table b is empty the
    whole column of table a is returned. *)
Theorem values_not_in_other_table (db : database)
    (table_a_name table_a_column table_b_name table_b_column : string)
    (tbl_a tbl_b : Table) :
  reflect db table_a_name = Ok tbl_a ->
  reflect db table_b_name = Ok tbl_b ->
  table_a_name <> table_b_name ->
  has_column tbl_a table_a_column = true ->
  has_column tbl_b table_b_column = true ->
  exists arr,
    get_all_val_in_table_a_not_table_b db table_a_name table_a_column
      table_b_name table_b_column = Ok arr /\
    arr = map (fun ra => cell (t_columns tbl_a) ra table_a_column)
            (filter
               (fun ra =>
                  forallb
                    (fun rb =>
                       match sql_cmp OpEq
                               (cell (t_columns tbl_b) rb table_b_column)
                               (cell (t_columns tbl_a) ra table_a_column)
                       with
                       | Some true => false
                       | _ => true
                       end)
                    (t_rows tbl_b))
               (t_rows tbl_a)) /\
    (forall z, In (VInt z) arr ->
       forall rb, In rb (t_rows tbl_b) ->
                  cell (t_columns tbl_b) rb table_b_column <> VInt z) /\
    (forall ra, In ra (t_rows tbl_a) ->
                cell (t_columns tbl_a) ra table_a_column = VNone ->
                In VNone arr) /\
    (t_rows tbl_b = [] ->
     arr = map (fun ra => cell (t_columns tbl_a) ra table_a_column)
             (t_rows tbl_a)).
Proof.
  intros Ha Hb Hne Hca Hcb.
  pose proof (reflect_name db _ _ Ha) as Hna.
  pose proof (reflect_name db _ _ Hb) as Hnb.
  set (keep := fun ra =>
                 forallb
                   (fun rb =>
                      match sql_cmp OpEq
                              (cell (t_columns tbl_b) rb table_b_column)
                              (cell (t_columns tbl_a) ra table_a_column)
                      with
                      | Some true => false
                      | _ => true
                      end)
                   (t_rows tbl_b)).
  assert (Hcall :
    get_all_val_in_table_a_not_table_b db table_a_name table_a_column
      table_b_name table_b_column
    = Ok (map (fun ra => cell (t_columns tbl_a) ra table_a_column)
            (filter keep (t_rows tbl_a)))).
  { unfold get_all_val_in_table_a_not_table_b. rewrite Ha, Hb. cbn [bind].
    rewrite !c_getitem_has by assumption. cbn [bind].
    unfold execute_not_exists. cbn [n_from n_sub_from n_column n_sub_left
                                      n_sub_right n_sub_column].
    rewrite Hna, Hnb.
    destruct (String.eqb_spec table_a_name table_b_name); [contradiction |].
    do 2 f_equal. apply filter_ext. intros ra. subst keep. cbv beta.
    induction (t_rows tbl_b) as [| rb rbs IH]; simpl; [reflexivity |].
    rewrite negb_orb, IH.
    destruct (sql_cmp OpEq _ _) as [[|] |]; reflexivity. }
  eexists. split; [exact Hcall |]. split; [reflexivity |].
  split; [| split].
  - intros z Hz rb Hrb Hcell.
    apply in_map_iff in Hz as (ra & Hval & Hra).
    apply filter_In in Hra as [_ Hkeep]. subst keep. cbv beta in Hkeep.
    rewrite forallb_forall in Hkeep. specialize (Hkeep rb Hrb).
    rewrite Hval, Hcell, sql_cmp_int, Z.eqb_refl in Hkeep. discriminate.
  - intros ra Hra Hnull. apply in_map_iff. exists ra.
    split; [exact Hnull |]. apply filter_In. split; [exact Hra |].
    subst keep. cbv beta. apply forallb_forall. intros rb _.
    now rewrite Hnull, sql_cmp_null_right.
  - intros Hempty. f_equal. subst keep. rewrite Hempty. simpl.
    apply filter_all.
Qed.

(** The values of [fees.x] that are not in [other.k], and those of
    [other.k] that are not in [fees.id]. *)
Lemma values_not_in_other_table_witness :
  get_all_val_in_table_a_not_table_b Sample.db2 "fees" "x" "other" "k"
  = Ok [VInt (-3); VInt 0; VInt 5]
  /\ get_all_val_in_table_a_not_table_b Sample.db2 "other" "k" "fees" "id"
     = Ok [VInt 9; VNone].
Proof.
  split.
  - destruct (values_not_in_other_table Sample.db2 "fees" "x" "other" "k"
                Sample.fees Sample.other eq_refl eq_refl)
      as (arr & Hcall & Harr & _); [discriminate | reflexivity ..|].
    rewrite Hcall, Harr. reflexivity.
  - destruct (values_not_in_other_table Sample.db2 "other" "k" "fees" "id"
                Sample.other Sample.fees eq_refl eq_refl)
      as (arr & Hcall & Harr & _); [discriminate | reflexivity ..|].
    rewrite Hcall, Harr. reflexivity.
Defined.

End NotInOtherTable.

(** ** add_columns_to_table and rename_columns *)

Section AlterStatements.
Import Sql SqlAlchemy.

Variable accepts : list string -> string -> bool.

Lemma for_in_filter_skip {A S} (keep : A -> bool) (xs : list A)
    (body : S -> A -> result S) (s : S) :
  for_in xs (fun s' x => if keep x then body s' x else Ok s') s
  = for_in (filter keep xs) body s.
Proof.
  revert s; induction xs as [| x xs IH]; intros s; simpl; [reflexivity |].
  destruct (keep x); simpl; [| apply IH].
  destruct (body s x); simpl; [apply IH | reflexivity].
Qed.

Lemma for_in_map {A B S} (f : A -> B) (xs : list A)
    (body : S -> B -> result S) (s : S) :
  for_in (map f xs) body s = for_in xs (fun s' x => body s' (f x)) s.
Proof.
  revert s; induction xs as [| x xs IH]; intros s; simpl; [reflexivity |].
  destruct (body s (f x)); simpl; [apply IH | reflexivity].
Qed.

Lemma for_in_ext {A S} (xs : list A) (body body' : S -> A -> result S)
    (s : S) :
  (forall s' x, In x xs -> body s' x = body' s' x) ->
  for_in xs body s = for_in xs body' s.
Proof.
  revert s; induction xs as [| x xs IH]; intros s H; simpl; [reflexivity |].
  rewrite H by (simpl; auto).
  destruct (body' s x); simpl; [| reflexivity].
  apply IH. intros s' y Hy. apply H. simpl; auto.
Qed.

Lemma for_in_accepted (stmts sent : list string) :
  (forall sent' stmt, accepts sent' stmt = true) ->
  for_in stmts (execute_text accepts) sent = Ok (sent ++ stmts).
Proof.
  intros Hacc. revert sent; induction stmts as [| stmt stmts IH];
    intros sent; simpl; [now rewrite app_nil_r |].
  unfold execute_text at 1. rewrite Hacc. simpl.
  rewrite IH. now rewrite <- app_assoc.
Qed.

(** [rename_columns] on a table of the schema sends, in the order of
    the dictionary, one [RENAME COLUMN] statement for each entry whose
    old name is a column of the table as it was when the call started,
    and nothing for the other entries, which raise no error.  When the
    engine takes every statement the call returns normally; when no old
    name is a column nothing is sent at all. *)
Theorem rename_columns_statements (db : database)
    (schema table_name : string) (column_dict : str_dict) (tbl : Table) :
  reflect db table_name = Ok tbl ->
  let stmts :=
    map (fun entry =>
           rename_column_text schema table_name (fst entry) (snd entry))
        (filter (fun entry => has_column tbl (fst entry)) column_dict) in
  rename_columns accepts db schema table_name column_dict
  = for_in stmts (execute_text accepts) [] /\
  ((forall sent stmt, accepts sent stmt = true) ->
   rename_columns accepts db schema table_name column_dict = Ok stmts) /\
  ((forall entry, In entry column_dict -> has_column tbl (fst entry) = false)
   -> rename_columns accepts db schema table_name column_dict = Ok []).
Proof.
  intros Ht stmts.
  assert (Heq : rename_columns accepts db schema table_name column_dict
                = for_in stmts (execute_text accepts) []).
  { unfold rename_columns. rewrite Ht. cbn [bind]. subst stmts.
    rewrite for_in_map.
    rewrite <- (for_in_filter_skip
                  (fun entry : string * string => has_column tbl (fst entry))).
    apply for_in_ext. intros sent [old_name new_name] _. reflexivity. }
  split; [exact Heq |]. split.
  - intros Hacc. rewrite Heq. now rewrite for_in_accepted.
  - intros Hnone. rewrite Heq. subst stmts.
    assert (Hf : filter (fun entry : string * string =>
                           has_column tbl (fst entry)) column_dict = []).
    { clear Heq. induction column_dict as [| e d IH]; simpl; [reflexivity |].
      rewrite Hnone by (simpl; auto). apply IH.
      intros entry Hin. apply Hnone. simpl; auto. }
    rewrite Hf. reflexivity.
Qed.

Lemma str_getitem_get (d : str_dict) (key v : string) :
  str_getitem d key = Ok v -> str_get d key = v.
Proof. unfold str_get. now intros ->. Qed.

Lemma map_m_names (columns : list str_dict) :
  (forall column, In column columns ->
                  exists v, str_getitem column "name" = Ok v) ->
  map_m (fun column => str_getitem column "name") columns
  = Ok (map (fun column => str_get column "name") columns).
Proof.
  induction columns as [| c cs IH]; intros H; simpl; [reflexivity |].
  destruct (H c (or_introl eq_refl)) as [v Hv].
  rewrite Hv, (str_getitem_get c "name" v Hv). simpl.
  rewrite IH by (intros; apply H; simpl; auto). reflexivity.
Qed.

(** [add_columns_to_table], for columns that all have a [name] and a
    [type], on a table that schema [twoprime] has: it sends, in the
    order of the list, one [ADD COLUMN] statement for each requested
    column that the table of schema [twoprime] lacks, and none for a
    column it has; a lacking name that is requested twice gets two
    statements.  The statements name the schema of the object, not
    [twoprime].  When every requested column is there nothing is
    sent. *)
Theorem add_columns_statements (twoprime : database)
    (schema table_name : string) (columns : list str_dict) (tbl : Table) :
  reflect twoprime table_name = Ok tbl ->
  (forall column, In column columns ->
     (exists v, str_getitem column "name" = Ok v) /\
     (exists v, str_getitem column "type" = Ok v)) ->
  let stmts :=
    map (fun column =>
           add_column_text schema table_name (str_get column "name")
             (str_get column "type"))
        (filter (fun column => negb (has_column tbl (str_get column "name")))
           columns) in
  add_columns_to_table accepts twoprime schema table_name columns
  = for_in stmts (execute_text accepts) [] /\
  ((forall sent stmt, accepts sent stmt = true) ->
   add_columns_to_table accepts twoprime schema table_name columns
   = Ok stmts) /\
  ((forall column, In column columns ->
                   has_column tbl (str_get column "name") = true) ->
   add_columns_to_table accepts twoprime schema table_name columns = Ok []).
Proof.
  intros Ht Hkeys stmts.
  assert (Heq : add_columns_to_table accepts twoprime schema table_name
                  columns
                = for_in stmts (execute_text accepts) []).
  { unfold add_columns_to_table.
    rewrite map_m_names by (intros c Hc; apply (Hkeys c Hc)).
    cbn [bind].
    destruct (check_if_columns_asked twoprime table_name
                (map (fun column => str_get column "name") columns) tbl Ht)
      as (check & Hcheck & Hlook).
    rewrite Hcheck. cbn [bind]. subst stmts.
    rewrite for_in_map.
    rewrite <- (for_in_filter_skip
                  (fun column : str_dict =>
                     negb (has_column tbl (str_get column "name")))).
    apply for_in_ext. intros sent column Hin.
    destruct (Hkeys column Hin) as [[n Hn] [t Htype]].
    rewrite Hn, (str_getitem_get column "name" n Hn). cbn [bind].
    rewrite Htype, (str_getitem_get column "type" t Htype).
    rewrite (Hlook n)
      by (apply in_map_iff; exists column;
          split; [now apply str_getitem_get | exact Hin]).
    cbn [bind]. destruct (has_column tbl n); reflexivity. }
  split; [exact Heq |]. split.
  - intros Hacc. rewrite Heq. now rewrite for_in_accepted.
  - intros Hall. rewrite Heq. subst stmts.
    assert (Hf : filter (fun column : str_dict =>
                           negb (has_column tbl (str_get column "name")))
                   columns = []).
    { clear Heq Hkeys. induction columns as [| c cs IH]; simpl;
        [reflexivity |].
      rewrite Hall by (simpl; auto). simpl. apply IH.
      intros column Hin. apply Hall. simpl; auto. }
    rewrite Hf. reflexivity.
Qed.

End AlterStatements.

Section AlterStatementsSamples.
Import Sql SqlAlchemy.

Lemma rename_columns_statements_witness :
  rename_columns (fun _ _ => true) Sample.db "flights" "fees"
    [("x", "y"); ("nope", "z")]
  = Ok ["ALTER TABLE flights.fees RENAME COLUMN x TO y;"].
Proof.
  apply (rename_columns_statements (fun _ _ => true) Sample.db "flights"
           "fees" [("x", "y"); ("nope", "z")] Sample.fees eq_refl).
  reflexivity.
Defined.

Lemma add_columns_statements_witness :
  add_columns_to_table (fun _ _ => true) Sample.db "flights" "fees"
    [[("name", "id"); ("type", "INTEGER")];
     [("name", "dt"); ("type", "DATETIME")]]
  = Ok ["ALTER TABLE flights.fees ADD COLUMN dt DATETIME"].
Proof.
  apply (add_columns_statements (fun _ _ => true) Sample.db "flights" "fees"
           [[("name", "id"); ("type", "INTEGER")];
            [("name", "dt"); ("type", "DATETIME")]]
           Sample.fees eq_refl).
  - intros column [<- | [<- | []]]; split; eexists; reflexivity.
  - reflexivity.
Defined.

End AlterStatementsSamples.
